(** * Stock Portfolio Manager: the CSV-to-quote pipeline

    A shallow embedding of the pipeline of the repository:
    - [parseCSV] and [handleFile] of [components/CSVUploader.tsx],
    - [handleCSVData] and [refreshStockData] of [App.tsx],
    - [handleSort] and the search filter of [components/StockTable.tsx],
    - the arithmetic of a successful answer of the quote proxy,
    over the [Stock] record shape of [types/Stock.ts].

    JavaScript strings are modelled by [string]; the string primitives below
    ([trim], [toUpperCase], [split], ...) are exact on ASCII text (CSV
    punctuation, ticker symbols).  JavaScript numbers are the binary64
    floats of [PrimFloat].  A JavaScript object used as a record is a
    [gmap string _]: reading an absent key gives [None] ([undefined]), and
    object spread is the left-biased union of maps. *)

From Stdlib Require Import Ascii String PrimFloat.
From Stdlib Require SpecFloat FloatOps QArith Qabs.
From stdpp Require Import base option list gmap strings fin_maps.

Local Open Scope string_scope.
Local Open Scope list_scope.

(** ** String primitives *)

Module Str.

Definition LF : ascii := "010"%char.
Definition COMMA : ascii := ","%char.
Definition DQUOTE : ascii := "034"%char.

(** White space removed by [String.prototype.trim] (ASCII part: TAB, LF, VT,
    FF, CR, SP). *)
Definition isWhiteSpace (c : ascii) : bool :=
  let n := nat_of_ascii c in
  (n =? 9)%nat || (n =? 10)%nat || (n =? 11)%nat || (n =? 12)%nat
  || (n =? 13)%nat || (n =? 32)%nat.

Definition isEmpty (s : string) : bool :=
  match s with EmptyString => true | String _ _ => false end.

Fixpoint trimStart (s : string) : string :=
  match s with
  | EmptyString => EmptyString
  | String c s' => if isWhiteSpace c then trimStart s' else s
  end.

Fixpoint trimEnd (s : string) : string :=
  match s with
  | EmptyString => EmptyString
  | String c s' =>
      let t := trimEnd s' in
      if isWhiteSpace c && isEmpty t then EmptyString else String c t
  end.

(** [s.trim()] *)
Definition trim (s : string) : string := trimEnd (trimStart s).

(** The case mappings of the ASCII letters; a character that is not an
    ASCII letter is left as it is.  They are those of [toUpperCase] and
    [toLowerCase] on ASCII text ([Text.isAscii]), to which the statements
    that depend on the mapping are restricted. *)
Definition upperChar (c : ascii) : ascii :=
  let n := nat_of_ascii c in
  if (97 <=? n)%nat && (n <=? 122)%nat then ascii_of_nat (n - 32) else c.

Definition lowerChar (c : ascii) : ascii :=
  let n := nat_of_ascii c in
  if (65 <=? n)%nat && (n <=? 90)%nat then ascii_of_nat (n + 32) else c.

Fixpoint mapChars (f : ascii -> ascii) (s : string) : string :=
  match s with
  | EmptyString => EmptyString
  | String c s' => String (f c) (mapChars f s')
  end.

(** [s.toUpperCase()], [s.toLowerCase()] *)
Definition toUpperCase : string -> string := mapChars upperChar.
Definition toLowerCase : string -> string := mapChars lowerChar.

(** [s.replace(DQUOTE, '')] with the global flag: every double-quote
    character is removed. *)
Fixpoint stripQuotes (s : string) : string :=
  match s with
  | EmptyString => EmptyString
  | String c s' =>
      if Ascii.eqb c DQUOTE then stripQuotes s' else String c (stripQuotes s')
  end.

(** [s.split(sep)] for a one-character separator: never the empty array, the
    empty string splits into one empty piece. *)
Fixpoint split (sep : ascii) (s : string) : list string :=
  match s with
  | EmptyString => [EmptyString]
  | String c s' =>
      if Ascii.eqb c sep then EmptyString :: split sep s'
      else match split sep s' with
           | [] => [String c EmptyString]
           | w :: ws => String c w :: ws
           end
  end.

(** [s.endsWith(suffix)] *)
Definition endsWith (s suffix : string) : bool :=
  let n := String.length s in
  let k := String.length suffix in
  (k <=? n)%nat && String.eqb (substring (n - k) k s) suffix.

(** [l.join(sep)] *)
Fixpoint join (sep : string) (l : list string) : string :=
  match l with
  | [] => EmptyString
  | [x] => x
  | x :: l' => x +:+ sep +:+ join sep l'
  end.

End Str.

(** ** Exceptions *)

(** Every value thrown in the pipeline is an [Error] instance carrying a
    message. *)
Record exn := Error { message : string }.

Inductive result (A : Type) : Type :=
| Ok (a : A)
| Throw (e : exn).
Arguments Ok {A} a.
Arguments Throw {A} e.

(** Sequencing of statements that may throw: [x ← r; k]. *)
Global Instance result_ret : MRet result := fun A a => Ok a.
Global Instance result_bind : MBind result := fun A B k r =>
  match r with
  | Ok a => k a
  | Throw e => Throw e
  end.

(** ** CSVUploader.tsx: parseCSV *)

(** A parsed CSV row: [row[header] = values[index]] stores strings only. *)
Abbreviation row := (gmap string string).

Module CSVUploader.

(** [line.split(',').map(v => v.trim().replace(DQUOTE, ''))]: the pieces
    between commas, each trimmed and then stripped of double quotes. *)
Definition fields (line : string) : list string :=
  map (fun v => Str.stripQuotes (Str.trim v)) (Str.split Str.COMMA line).

(** [row[header] = value].  Assigning a string to the key [__proto__] of an
    object literal is ignored by JavaScript and creates no property. *)
Definition assign (r : row) (header value : string) : row :=
  if String.eqb header "__proto__" then r else <[header := value]> r.

(** [values.length === headers.length] for the values of [line]. *)
Definition accepted (headers : list string) (line : string) : bool :=
  (length (fields line) =? length headers)%nat.

(** [const row = {}; headers.forEach((header, index) => row[header] =
    values[index]); ]  The loop runs under the guard [values.length ===
    headers.length], so [values[index]] exists for every header index: the
    loop walks the two arrays in step. *)
Definition mkRow (headers values : list string) : row :=
  fold_left (fun r hv => assign r hv.1 hv.2) (zip headers values) ∅.

(** The [for (let i = 1; i < lines.length; i++)] loop, [rest] being
    [lines[i..]] and [data] the array pushed to so far. *)
Fixpoint parseRows (headers : list string) (rest : list string)
    (data : list row) : list row :=
  match rest with
  | [] => data
  | line :: rest' =>
      let values := fields line in
      if accepted headers line
      then parseRows headers rest' (data ++ [mkRow headers values])
      else parseRows headers rest' data
  end.

(** [text.trim().split('\n')] *)
Definition linesOf (text : string) : list string :=
  Str.split Str.LF (Str.trim text).

Definition parseCSV (text : string) : result (list row) :=
  let lines := linesOf text in
  if (length lines <? 2)%nat
  then Throw (Error "CSV file must contain at least a header row and one data row.")
  else
    let headers := fields (hd EmptyString lines) in
    Ok (parseRows headers (tl lines) []).

(** [downloadTemplate]: the rows of the template and the text made of them. *)
Definition templateData : list (list string) :=
  [["symbol"; "quantity"; "purchase_price"; "purchase_date"];
   ["RELIANCE"; "100"; "2450.50"; "2024-01-15"];
   ["TCS"; "50"; "3200.75"; "2024-01-20"];
   ["INFY"; "75"; "1800.25"; "2024-02-01"];
   ["HDFCBANK"; "25"; "1650.00"; "2024-02-10"];
   ["ICICIBANK"; "60"; "950.80"; "2024-02-15"]].

Definition csvContent : string :=
  Str.join (String Str.LF EmptyString) (map (Str.join ",") templateData).

End CSVUploader.

(** ** JavaScript values held in a record field *)

(** Nested arrays and objects of a response are never inspected by the
    pipeline: they are carried around by reference ([VRef]). *)
Inductive value : Type :=
| VUndef
| VNull
| VBool (b : bool)
| VNum (n : float)
| VStr (s : string)
| VRef (addr : N).

(** ToBoolean: [undefined], [null], [false], [0], [-0], [NaN] and the empty
    string are falsy. *)
Definition truthy (v : value) : bool :=
  match v with
  | VUndef | VNull => false
  | VBool b => b
  | VNum n => negb (PrimFloat.is_zero n || PrimFloat.is_nan n)
  | VStr s => negb (Str.isEmpty s)
  | VRef _ => true
  end.

(** [a || b] *)
Definition jsOr (a b : value) : value := if truthy a then a else b.

(** [typeof v === 'string'] *)
Definition isString (v : value) : bool :=
  match v with VStr _ => true | _ => false end.

(** [a === b] *)
Definition strictEq (a b : value) : bool :=
  match a, b with
  | VUndef, VUndef | VNull, VNull => true
  | VBool x, VBool y => Bool.eqb x y
  | VNum x, VNum y => PrimFloat.eqb x y
  | VStr x, VStr y => String.eqb x y
  | VRef x, VRef y => N.eqb x y
  | _, _ => false
  end.

(** The number [n] of an array index or length. *)
Fixpoint numOfNat (n : nat) : float :=
  match n with
  | O => 0%float
  | S n' => PrimFloat.add (numOfNat n') 1%float
  end.

(** The shape of [Stock]: named fields plus arbitrary extra CSV columns. *)
Abbreviation stock := (gmap string value).

(** [o.key], [undefined] when the property is absent. *)
Definition prop (o : stock) (key : string) : value := default VUndef (o !! key).

(** [r.key] of a parsed row. *)
Definition column (r : row) (key : string) : value :=
  from_option VStr VUndef (r !! key).

(** The properties [k1: v1, k2: v2, ...] of an object literal, written in
    order onto what the literal holds so far. *)
Definition withFields (o : stock) (kvs : list (string * value)) : stock :=
  fold_left (fun acc kv => <[kv.1 := kv.2]> acc) kvs o.

(** [...r] at the end of an object literal, [r] a parsed row or [undefined]:
    every column of [r] is written over the properties before it. *)
Definition spreadRow (r : option row) (o : stock) : stock :=
  match r with
  | Some r => (VStr <$> r) ∪ o
  | None => o
  end.

(** ** The quote endpoint as seen by the client *)

(** What [await response.json()] yields when it does not reject. *)
Inductive payload : Type :=
| JNull
| JObject (props : gmap string value)
| JOther.   (* a number, a string, a boolean or an array *)

(** [data.key]: a TypeError on [null]; primitives and arrays have none of the
    properties the client reads. *)
Definition getProp (data : payload) (key : string) : result value :=
  match data with
  | JNull => Throw (Error ("Cannot read properties of null (reading '" +:+ key +:+ "')"))
  | JObject props => Ok (default VUndef (props !! key))
  | JOther => Ok VUndef
  end.

Inductive fetchOutcome : Type :=
| NetworkError (e : exn)                          (* fetch() rejects *)
| Response (ok : bool) (json : result payload).   (* json: response.json() *)

(** The world around one batch of requests: the outcome of the request issued
    at position [index] for [symbol], and the time stamp [new
    Date().toISOString()] read while building the entry at that position. *)
Record env := Env {
  fetch : nat -> value -> fetchOutcome;
  now : nat -> string;
}.

(** [Promise.all] over promises that are already settled. *)
Fixpoint promiseAll {A} (ps : list (result A)) : result (list A) :=
  match ps with
  | [] => Ok []
  | p :: ps' => a ← p; l ← promiseAll ps'; Ok (a :: l)
  end.

(** [try { body } catch (error) { handler }] *)
Definition tryCatch {A} (body : result A) (handler : exn -> result A) : result A :=
  match body with
  | Ok a => Ok a
  | Throw e => handler e
  end.

(** ** App.tsx *)

(** What a handler does, in program order: state setters of [App] and of the
    uploader, requests sent to [/api/stock-quote], and [alert] boxes.
    [console.error] output is not recorded. *)
Inductive event : Type :=
| SetLoading (b : bool)
| SetStocks (l : list stock)
| SetError (e : option string)
| Request (symbol : value)
| Alert (msg : string).

Module App.

Definition zero : value := VNum 0%float.

(** [s.trim().toUpperCase()] *)
Definition normalize (s : string) : string := Str.toUpperCase (Str.trim s).

(** [row.symbol || row.Symbol || row.SYMBOL] *)
Definition symbolOf (r : row) : value :=
  jsOr (jsOr (column r "symbol") (column r "Symbol")) (column r "SYMBOL").

(** [symbol => symbol && typeof symbol === 'string'] *)
Definition validSymbol (v : value) : bool := truthy v && isString v.

(** [symbol => symbol.trim().toUpperCase()], applied after the filter has left
    strings only. *)
Definition normalizeValue (v : value) : string :=
  match v with
  | VStr s => normalize s
  | _ => EmptyString
  end.

(** [csvData.map(..).filter(..).map(..)] *)
Definition symbolsOf (csvData : list row) : list string :=
  map normalizeValue (List.filter validSymbol (map symbolOf csvData)).

(** The symbol column of a row when the filter keeps it: a string that is
    not empty. *)
Definition rawSymbol (r : row) : option string :=
  match symbolOf r with
  | VStr s => if Str.isEmpty s then None else Some s
  | _ => None
  end.

(** The rows whose symbol the filter keeps: the row behind [symbols[i]] is
    [validRows csvData !! i]. *)
Definition validRows (csvData : list row) : list row :=
  List.filter (fun r => validSymbol (symbolOf r)) csvData.

Definition noSymbolsMessage : string :=
  "No valid stock symbols found in CSV. Please ensure your CSV has a "
  +:+ String Str.DQUOTE ("symbol" +:+ String Str.DQUOTE " column.").

(** Lines 16-23: the symbols, or the error thrown when there is none. *)
Definition extractSymbols (csvData : list row) : result (list string) :=
  let symbols := symbolsOf csvData in
  if (length symbols =? 0)%nat then Throw (Error noSymbolsMessage)
  else Ok symbols.

(** [row => (row.symbol || row.Symbol || row.SYMBOL)?.trim().toUpperCase()
    === symbol]: on [undefined] the optional chain stops and yields
    [undefined]. *)
Definition rowMatches (symbol : string) (r : row) : bool :=
  match symbolOf r with
  | VStr s => String.eqb (normalize s) symbol
  | _ => false
  end.

(** [csvData.find(row => ...)] *)
Definition matchedRow (csvData : list row) (symbol : string) : option row :=
  List.find (rowMatches symbol) csvData.

(** The text of [symbol] inside a template literal.  Only strings are spelled
    out: the one message built from it is caught by the callback that throws
    it and goes to the console. *)
Definition textOf (symbol : value) : string :=
  match symbol with
  | VStr s => s
  | _ => EmptyString
  end.

(** [await fetch(..)], the [response.ok] test and [await response.json()]. *)
Definition fetchData (E : env) (index : nat) (symbol : value) : result payload :=
  match fetch E index symbol with
  | NetworkError e => Throw e
  | Response ok json =>
      if negb ok then Throw (Error ("Failed to fetch data for " +:+ textOf symbol))
      else json
  end.

(** The outcomes that send the callback of a symbol to its [catch] block:
    [fetch] rejected, a status outside 200-299, a body that [response.json()]
    rejects, or the body [null], whose first property read throws. *)
Definition failed (o : fetchOutcome) : bool :=
  match o with
  | NetworkError _ => true
  | Response ok json =>
      negb ok || match json with
                 | Throw _ | Ok JNull => true
                 | Ok _ => false
                 end
  end.

(** Lines 42-54: the properties written before the spread in the [try]
    block, from what was read off [data]. *)
Definition quoteFields (index : nat) (symbol lastUpdated : string)
    (companyName ltp open high low previousClose change changePercent
     volume : value) : stock :=
  withFields ∅
    [("id", VNum (numOfNat index + 1));
     ("symbol", VStr symbol);
     ("companyName", jsOr companyName (VStr symbol));
     ("ltp", jsOr ltp zero);
     ("open", jsOr open zero);
     ("high", jsOr high zero);
     ("low", jsOr low zero);
     ("previousClose", jsOr previousClose zero);
     ("change", jsOr change zero);
     ("changePercent", jsOr changePercent zero);
     ("volume", jsOr volume zero);
     ("lastUpdated", VStr lastUpdated)].

(** Lines 27-58: the [try] block of one symbol of an upload. *)
Definition quoteEntry (E : env) (csvData : list row) (index : nat)
    (symbol : string) : result stock :=
  data ← fetchData E index (VStr symbol);
  companyName ← getProp data "companyName";
  ltp ← getProp data "ltp";
  open ← getProp data "open";
  high ← getProp data "high";
  low ← getProp data "low";
  previousClose ← getProp data "previousClose";
  change ← getProp data "change";
  changePercent ← getProp data "changePercent";
  volume ← getProp data "volume";
  Ok (spreadRow (matchedRow csvData symbol)
        (quoteFields index symbol (now E index) companyName ltp open high low
           previousClose change changePercent volume)).

(** Lines 62-74: the properties written before the spread in the [catch]
    block. *)
Definition failureFields (index : nat) (symbol lastUpdated : string) : stock :=
  withFields ∅
    [("id", VNum (numOfNat index + 1));
     ("symbol", VStr symbol);
     ("companyName", VStr symbol);
     ("ltp", zero);
     ("open", zero);
     ("high", zero);
     ("low", zero);
     ("previousClose", zero);
     ("change", zero);
     ("changePercent", zero);
     ("volume", zero);
     ("lastUpdated", VStr lastUpdated);
     ("error", VStr "Failed to fetch data")].

(** Lines 59-79: the [catch] block of one symbol of an upload. *)
Definition failedEntry (csvData : list row) (index : nat)
    (symbol lastUpdated : string) : stock :=
  spreadRow (matchedRow csvData symbol) (failureFields index symbol lastUpdated).

(** Lines 26-80: the async callback of [symbols.map]. *)
Definition stockPromise (E : env) (csvData : list row) (index : nat)
    (symbol : string) : result stock :=
  tryCatch (quoteEntry E csvData index symbol)
           (fun _ => Ok (failedEntry csvData index symbol (now E index))).

(** What the promise of position [index] is fulfilled with. *)
Definition settledEntry (E : env) (csvData : list row) (index : nat)
    (symbol : string) : stock :=
  match quoteEntry E csvData index symbol with
  | Ok entry => entry
  | Throw _ => failedEntry csvData index symbol (now E index)
  end.

(** The numeric quote fields of [Stock]. *)
Definition numericFields : list string :=
  ["ltp"; "open"; "high"; "low"; "previousClose"; "change"; "changePercent";
   "volume"].

(** Lines 11-90. *)
Definition handleCSVData (E : env) (csvData : list row) : list event :=
  [SetLoading true]
  ++ match extractSymbols csvData with
     | Throw e => [Alert (message e)]
     | Ok symbols =>
         map (fun symbol => Request (VStr symbol)) symbols
         ++ match promiseAll (imap (stockPromise E csvData) symbols) with
            | Ok stockResults => [SetStocks stockResults]
            | Throw e => [Alert (message e)]
            end
     end
  ++ [SetLoading false].

(** [stocks.find(s => s.symbol === symbol)] *)
Definition existing (stocks : list stock) (symbol : value) : option stock :=
  List.find (fun s => strictEq (prop s "symbol") symbol) stocks.

(** Lines 118-126: the properties written after the spread in the [try]
    block of a refresh. *)
Definition refreshFields (lastUpdated : string)
    (ltp open high low previousClose change changePercent volume : value)
    : list (string * value) :=
  [("ltp", jsOr ltp zero);
   ("open", jsOr open zero);
   ("high", jsOr high zero);
   ("low", jsOr low zero);
   ("previousClose", jsOr previousClose zero);
   ("change", jsOr change zero);
   ("changePercent", jsOr changePercent zero);
   ("volume", jsOr volume zero);
   ("lastUpdated", VStr lastUpdated)].

(** The keys a refresh writes. *)
Definition refreshedKeys : list string := numericFields ++ ["lastUpdated"].

(** Lines 100-127: the [try] block of one symbol of a refresh;
    [{...existingStock, ...}] starts from the empty object when
    [existingStock] is [undefined]. *)
Definition refreshedEntry (E : env) (stocks : list stock) (index : nat)
    (symbol : value) : result stock :=
  data ← fetchData E index symbol;
  let existingStock := existing stocks symbol in
  ltp ← getProp data "ltp";
  open ← getProp data "open";
  high ← getProp data "high";
  low ← getProp data "low";
  previousClose ← getProp data "previousClose";
  change ← getProp data "change";
  changePercent ← getProp data "changePercent";
  volume ← getProp data "volume";
  Ok (withFields (default ∅ existingStock)
        (refreshFields (now E index) ltp open high low previousClose change
           changePercent volume)).

(** Lines 99-132: the async callback of [symbols.map] in a refresh.
    [symbols] is [stocks.map(stock => stock.symbol)], so the callback runs at
    every position [index] of [stocks] with [symbol = stocks[index].symbol];
    [own] is [stocks[index]], the fallback of the [catch] block. *)
Definition refreshPromise (E : env) (stocks : list stock) (index : nat)
    (own : stock) : result stock :=
  let symbol := prop own "symbol" in
  tryCatch (refreshedEntry E stocks index symbol)
           (fun _ => Ok (default own (existing stocks symbol))).

(** What the promise of position [index] of a refresh is fulfilled with. *)
Definition settledRefresh (E : env) (stocks : list stock) (index : nat)
    (own : stock) : stock :=
  match refreshedEntry E stocks index (prop own "symbol") with
  | Ok entry => entry
  | Throw _ => default own (existing stocks (prop own "symbol"))
  end.

(** Lines 92-142. *)
Definition refreshStockData (E : env) (stocks : list stock) : list event :=
  if (length stocks =? 0)%nat then []
  else
    [SetLoading true]
    ++ map (fun s => Request (prop s "symbol")) stocks
    ++ match promiseAll (imap (refreshPromise E stocks) stocks) with
       | Ok stockResults => [SetStocks stockResults]
       | Throw _ => [Alert "Error refreshing stock data"]
       end
    ++ [SetLoading false].

(** Line 245: the button that clears the portfolio for a new upload. *)
Definition clear : list event := [SetStocks []].

End App.

(** ** CSVUploader.tsx: handleFile *)

Module Uploader.

(** [handleFile(file)] with [reader.onload] run on the text of the file;
    [onDataLoaded] is [App.handleCSVData], which settles its own errors. *)
Definition handleFile (E : env) (name text : string) : list event :=
  if negb (Str.endsWith (Str.toLowerCase name) ".csv")
  then [SetError (Some "Please upload a CSV file.")]
  else
    [SetError None]
    ++ match CSVUploader.parseCSV text with
       | Ok data => App.handleCSVData E data
       | Throw e => [SetError (Some (message e))]
       end.

End Uploader.

(** ** Session state *)

(** [stocks] and [loading] are the state of [App], [error] that of the
    uploader; [alerts] and [requests] log what was shown and sent. *)
Record session := Session {
  stocks : list stock;
  loading : bool;
  error : option string;
  alerts : list string;
  requests : list value;
}.

Definition initial : session :=
  {| stocks := []; loading := false; error := None; alerts := [];
     requests := [] |}.

(** One action of a handler on the state its piece is building: a setter
    call writes its state variable, a request and an alert are logged.  What
    is rendered is the state at the end of a piece (see [commits]). *)
Definition apply (s : session) (ev : event) : session :=
  match ev with
  | SetLoading b =>
      {| stocks := stocks s; loading := b; error := error s;
         alerts := alerts s; requests := requests s |}
  | SetStocks l =>
      {| stocks := l; loading := loading s; error := error s;
         alerts := alerts s; requests := requests s |}
  | SetError e =>
      {| stocks := stocks s; loading := loading s; error := e;
         alerts := alerts s; requests := requests s |}
  | Request symbol =>
      {| stocks := stocks s; loading := loading s; error := error s;
         alerts := alerts s; requests := requests s ++ [symbol] |}
  | Alert msg =>
      {| stocks := stocks s; loading := loading s; error := error s;
         alerts := alerts s ++ [msg]; requests := requests s |}
  end.

(** The state the actions [evs] leave behind, applied in order to [s]. *)
Definition run (s : session) (evs : list event) : session :=
  fold_left apply evs s.

(** The three states of the session: the loading flag is up, or else the
    portfolio is empty (the uploader is shown) or not (the table is shown). *)
Inductive phase : Type := Empty | Loading | Loaded.

Definition phaseOf (s : session) : phase :=
  if loading s then Loading
  else match stocks s with
       | [] => Empty
       | _ :: _ => Loaded
       end.

Global Instance phase_eq_dec : EqDecision phase.
Proof. solve_decision. Defined.


(** Every entry of the portfolio has a string for symbol, as [Stock]
    declares. *)
Definition stringSymbols (stocks : list stock) : Prop :=
  Forall (fun s => isString (prop s "symbol") = true) stocks.

(** ** Sample data *)

Module Sample.

Definition stamp : string := "2024-02-15T10:00:00.000Z".

(** Every request is rejected by the network. *)
Definition offline : env :=
  Env (fun _ _ => NetworkError (Error "Failed to fetch")) (fun _ => stamp).

(** Every request is answered with the same quote. *)
Definition quote : gmap string value :=
  list_to_map
    [("companyName", VStr "Infosys Ltd."); ("ltp", VNum 1845);
     ("open", VNum 1810); ("high", VNum 1860); ("low", VNum 1805);
     ("previousClose", VNum 1800); ("change", VNum 45);
     ("changePercent", VNum 2.5); ("volume", VNum 120000)].

Definition online : env :=
  Env (fun _ _ => Response true (Ok (JObject quote))) (fun _ => stamp).

(** The first request is answered, the others are rejected. *)
Definition firstOnly : env :=
  Env (fun index _ =>
         match index with
         | O => Response true (Ok (JObject quote))
         | S _ => NetworkError (Error "Failed to fetch")
         end)
      (fun _ => stamp).

Definition lines (l : list string) : string :=
  Str.join (String Str.LF EmptyString) l.

End Sample.

(** ** More string primitives *)

Module Text.

(** [s.startsWith(prefix)] *)
Fixpoint startsWith (s prefix : string) : bool :=
  match prefix, s with
  | EmptyString, _ => true
  | String c prefix', String d s' => Ascii.eqb c d && startsWith s' prefix'
  | String _ _, EmptyString => false
  end.

(** [s.includes(t)]: [t] starts at some position of [s]. *)
Fixpoint includes (s t : string) : bool :=
  startsWith s t
  || match s with
     | EmptyString => false
     | String _ s' => includes s' t
     end.

(** The one-character string of [c]. *)
Definition char (c : ascii) : string := String c EmptyString.

(** A cell that [parseCSV] reads back as it is: not empty, trimmed, and
    free of commas, line feeds and double quotes. *)
Definition plain (cell : string) : bool :=
  negb (Str.isEmpty cell)
  && String.eqb (Str.trim cell) cell
  && negb (includes cell (char Str.COMMA))
  && negb (includes cell (char Str.LF))
  && negb (includes cell (char Str.DQUOTE)).

(** The number of occurrences of [c] in [s]. *)
Fixpoint count (c : ascii) (s : string) : nat :=
  match s with
  | EmptyString => 0
  | String d s' => (if Ascii.eqb d c then 1 else 0) + count c s'
  end.

(** In the words of the specification: the comma-split field count of a
    line, one more than the number of its commas. *)
Definition fieldCount (line : string) : nat := S (count Str.COMMA line).

(** ASCII text: every character code is below 128.  On such text the
    string primitives of [Str] are those of JavaScript. *)
Fixpoint isAscii (s : string) : bool :=
  match s with
  | EmptyString => true
  | String c s' => (nat_of_ascii c <? 128)%nat && isAscii s'
  end.

End Text.

(** [templateData.map(row => row.join(',')).join('\n')] of
    [downloadTemplate], for any table. *)
Definition csvText (table : list (list string)) : string :=
  Str.join (Text.char Str.LF) (map (Str.join (Text.char Str.COMMA)) table).

(** ** StockTable.tsx *)

Module StockTable.






(** [stock.field.toLowerCase()]: a TypeError unless the field holds a
    string. *)
Definition lowered (field : string) (v : value) : result string :=
  match v with
  | VStr s => Ok (Str.toLowerCase s)
  | VUndef =>
      Throw (Error "Cannot read properties of undefined (reading 'toLowerCase')")
  | VNull =>
      Throw (Error "Cannot read properties of null (reading 'toLowerCase')")
  | _ => Throw (Error ("stock." +:+ field +:+ ".toLowerCase is not a function"))
  end.

(** Lines 219-220: the callback of [stocks.filter].  The right operand of
    [||] is evaluated only when the symbol does not contain the term. *)
Definition matchesSearch (searchTerm : string) (entry : stock) : result bool :=
  symbol ← lowered "symbol" (prop entry "symbol");
  if Text.includes symbol (Str.toLowerCase searchTerm) then Ok true
  else
    companyName ← lowered "companyName" (prop entry "companyName");
    Ok (Text.includes companyName (Str.toLowerCase searchTerm)).

(** Lines 218-221, the filter stage of [filteredAndSortedStocks]: the array
    [filtered] that is then handed to [sort].  The callback runs on the
    entries in order, and the first exception it throws ends the filter.
    The sort of lines 223-235 is not modelled: the order in which it calls
    its comparator is left to the implementation. *)
Fixpoint filtered (searchTerm : string) (stocks : list stock)
    : result (list stock) :=
  match stocks with
  | [] => Ok []
  | entry :: stocks' =>
      keep ← matchesSearch searchTerm entry;
      rest ← filtered searchTerm stocks';
      Ok (if (keep : bool) then entry :: rest else rest)
  end.

End StockTable.

(** The text of a field holds the term, letter case apart. *)
Definition holds (term : string) (v : value) : Prop :=
  ∃ text pre post,
    v = VStr text
    ∧ Str.toLowerCase text = pre +:+ Str.toLowerCase term +:+ post.

(** ** Synchronous runs and commits *)

(** A handler runs in pieces: from its start, or from the event that calls
    it, up to its [await], and from there on once the awaited promise has
    settled.  React batches the setter calls of one piece and commits them
    together when the piece ends, so that no state in between is ever
    rendered; an [alert] blocks with the last committed state on screen.
    [sync] holds the pieces that follow one another without a wait for the
    network (each one committed at its end), [resumed] the piece after the
    [await], when the handler has one. *)
Record script := Script {
  sync : list (list event);
  resumed : option (list event);
}.

(** All the actions of a handler, in program order. *)
Definition flat (h : script) : list event :=
  concat (sync h) ++ default [] (resumed h).

Module Runs.

(** [handleCSVData], cut at [await Promise.all(stockPromises)] (line 82).
    Each callback of [symbols.map] calls [fetch] at once and then waits, so
    the requests leave in the piece that raised the loading flag; when no
    symbol is found the error is thrown, caught and alerted before any
    [await]. *)
Definition handleCSVData (E : env) (csvData : list row) : script :=
  match App.extractSymbols csvData with
  | Throw e => Script [[SetLoading true; Alert (message e); SetLoading false]] None
  | Ok symbols =>
      Script [SetLoading true :: map (fun symbol => Request (VStr symbol)) symbols]
        (Some (match promiseAll (imap (App.stockPromise E csvData) symbols) with
               | Ok stockResults => [SetStocks stockResults]
               | Throw e => [Alert (message e)]
               end
               ++ [SetLoading false]))
  end.

(** [refreshStockData], cut at its [await Promise.all(stockPromises)]
    (line 134). *)
Definition refreshStockData (E : env) (stocks : list stock) : script :=
  if (length stocks =? 0)%nat then Script [] None
  else
    Script [SetLoading true :: map (fun s => Request (prop s "symbol")) stocks]
      (Some (match promiseAll (imap (App.refreshPromise E stocks) stocks) with
             | Ok stockResults => [SetStocks stockResults]
             | Throw _ => [Alert "Error refreshing stock data"]
             end
             ++ [SetLoading false])).

(** [handleFile]: the call itself, then the [reader.onload] callback, which
    runs [parseCSV] and the first piece of [handleCSVData]. *)
Definition handleFile (E : env) (name text : string) : script :=
  if negb (Str.endsWith (Str.toLowerCase name) ".csv")
  then Script [[SetError (Some "Please upload a CSV file.")]] None
  else
    match CSVUploader.parseCSV text with
    | Ok data =>
        Script ([SetError None] :: sync (handleCSVData E data))
               (resumed (handleCSVData E data))
    | Throw e => Script [[SetError None]; [SetError (Some (message e))]] None
    end.

(** The button that clears the portfolio. *)
Definition clear : script := Script [App.clear] None.

End Runs.

(** The states committed at the end of each piece. *)
Fixpoint commits (s : session) (runs : list (list event)) : list session :=
  match runs with
  | [] => []
  | r :: runs' => run s r :: commits (run s r) runs'
  end.

(** ** The session as the user drives it *)










(** ** The quote proxy: the arithmetic of a successful answer *)

(** The exact value of a finite binary64 number, as a fraction. *)
Module Exact.

Definition value (x : float) : option QArith_base.Q :=
  match FloatOps.Prim2SF x with
  | SpecFloat.S754_zero _ => Some (QArith_base.Qmake 0 1)
  | SpecFloat.S754_finite s m e =>
      let q := match e with
               | Zneg k => QArith_base.Qmake (Zpos m) (2 ^ k)
               | _ => QArith_base.Qmake (Zpos m * 2 ^ e) 1
               end in
      Some (if s then QArith_base.Qopp q else q)
  | _ => None
  end.

(** [|a - b| <= tol] *)
Definition within (tol a b : QArith_base.Q) : bool :=
  QArith_base.Qle_bool (Qabs.Qabs (QArith_base.Qminus a b)) tol.

End Exact.

Module Proxy.

(** [stockData] of line 114, with the fields [UpstoxQuoteResponse] declares
    for it, all of them numbers. *)
Record stockData := StockData {
  ltp : float;
  open : float;
  high : float;
  low : float;
  close : float;
  prev_close_price : float;
  volume : float;
}.

(** The integer [n] of [x.toFixed(2)] for [x = m * 2^e]: the one for which
    [n / 100 - x] is as close to zero as possible, the larger one of two. *)
Definition hundredths (m : positive) (e : Z) : Z :=
  match e with
  | Zneg k => (200 * Zpos m + 2 ^ Zpos k) / 2 ^ (Zpos k + 1)
  | _ => 100 * Zpos m * 2 ^ e
  end.

(** [parseFloat] of the digits of [n / 100] behind the sign [s]: the
    binary64 number nearest to [n / 100], ties to even. *)
Definition parseHundredths (s : bool) (n : Z) : float :=
  match n with
  | Zpos p =>
      FloatOps.SF2Prim
        (SpecFloat.SFdiv FloatOps.prec FloatOps.emax
           (SpecFloat.S754_finite s p 0) (SpecFloat.S754_finite false 100 0))
  | _ => if s then neg_zero else zero
  end.

(** [parseFloat(x.toFixed(2))].  [toFixed] writes [NaN] and the infinities
    by name and a number from [1e21] on in exponent notation, all of which
    [parseFloat] reads back as they were; it writes zero of either sign
    without a sign. *)
Definition round2 (x : float) : float :=
  match FloatOps.Prim2SF x with
  | SpecFloat.S754_finite s m e =>
      if PrimFloat.leb 1e21 (PrimFloat.abs x) then x
      else parseHundredths s (hundredths m e)
  | SpecFloat.S754_zero _ => zero
  | _ => x
  end.

(** Lines 133-134. *)
Definition change (d : stockData) : float :=
  PrimFloat.sub (ltp d) (prev_close_price d).

Definition changePercent (d : stockData) : float :=
  PrimFloat.mul (PrimFloat.div (change d) (prev_close_price d)) 100.

(** Lines 136-146: [responseData], [symbol] being the string the client
    sent. *)
Definition responseData (symbol : string) (d : stockData) : gmap string value :=
  withFields ∅
    [("companyName", VStr symbol);
     ("ltp", VNum (ltp d));
     ("open", VNum (open d));
     ("high", VNum (high d));
     ("low", VNum (low d));
     ("previousClose", VNum (prev_close_price d));
     ("change", VNum (round2 (change d)));
     ("changePercent", VNum (round2 (changePercent d)));
     ("volume", VNum (volume d))].

(** One value through [JSON.stringify] and [response.json()]: a finite
    number comes back as it was, negative zero as zero, and [NaN] and the
    infinities as [null]; strings come back as they were. *)
Definition json (v : value) : value :=
  match v with
  | VNum x =>
      if PrimFloat.is_nan x || PrimFloat.is_infinity x then VNull
      else if PrimFloat.is_zero x then VNum 0
      else VNum x
  | _ => v
  end.


End Proxy.

(** In the words of the specification: the number returned is within 0.01
    of the exact value [q]. *)
Definition withinCent (returned : value) (q : QArith_base.Q) : bool :=
  match returned with
  | VNum x =>
      match Exact.value x with
      | Some r => Exact.within (QArith_base.Qmake 1 100) r q
      | None => false
      end
  | _ => false
  end.

(** In the words of the specification: the returned change is within 0.01
    of [ltp - previousClose] and the returned changePercent within 0.01 of
    [100 * (ltp - previousClose) / previousClose], in exact arithmetic. *)
Definition meetsTolerance (ltp previousClose : QArith_base.Q)
    (change changePercent : value) : bool :=
  withinCent change (QArith_base.Qminus ltp previousClose)
  && withinCent changePercent
       (QArith_base.Qdiv
          (QArith_base.Qmult (QArith_base.Qmake 100 1)
             (QArith_base.Qminus ltp previousClose))
          previousClose).

(** * Properties *)

(** ** The CSV parser *)

Section Parser.
Import CSVUploader.

Lemma parseRows_filter headers rest data :
  parseRows headers rest data
  = data ++ map (fun line => mkRow headers (fields line))
                (List.filter (accepted headers) rest).
Proof.
  revert data. induction rest as [| line rest IH]; intros data; simpl.
  - by rewrite app_nil_r.
  - destruct (accepted headers line); simpl.
    + rewrite IH, <- app_assoc. reflexivity.
    + apply IH.
Qed.

(** Splitting at a character gives one piece more than the text has
    occurrences of it. *)
Lemma split_length (sep : ascii) (s : string) :
  length (Str.split sep s) = S (Text.count sep s).
Proof.
  induction s as [| c s IH]; [reflexivity |].
  cbn [Str.split Text.count].
  destruct (Ascii.eqb c sep); cbn [length]; [by rewrite IH |].
  destruct (Str.split sep s) as [| w ws]; [discriminate IH |].
  cbn [length] in *. rewrite IH. reflexivity.
Qed.

Lemma fields_length (line : string) :
  length (fields line) = Text.fieldCount line.
Proof. unfold fields. rewrite length_map. apply split_length. Qed.

Lemma accepted_fieldCount (header line : string) :
  accepted (fields header) line
  = (Text.fieldCount line =? Text.fieldCount header)%nat.
Proof. unfold accepted. by rewrite !fields_length. Qed.

(** C7. When the trimmed text has at least two lines, [parseCSV] does not
    throw.  The field count of a line, as [parseCSV] takes it, is one more
    than the number of commas of the line, and the result is made of exactly
    the data lines whose field count equals the field count of the header
    line, one row per such line and in the order of the lines: a line with
    more or fewer fields leaves no row and raises no error. *)
Theorem parseCSV_field_count (text : string) :
  (2 ≤ length (linesOf text))%nat →
  let header := hd EmptyString (linesOf text) in
  let dataLines := tl (linesOf text) in
  let kept := List.filter
                (fun line => (Text.fieldCount line =? Text.fieldCount header)%nat)
                dataLines in
  (∀ line, length (fields line) = Text.fieldCount line
           ∧ length (Str.split Str.COMMA line) = Text.fieldCount line)
  ∧ parseCSV text = Ok (map (fun line => mkRow (fields header) (fields line)) kept)
  ∧ (∀ data, parseCSV text = Ok data → length data = length kept)
  ∧ (∀ line, line ∈ kept
             ↔ line ∈ dataLines ∧ Text.fieldCount line = Text.fieldCount header)
  ∧ ∀ r, (∃ data, parseCSV text = Ok data ∧ r ∈ data)
         ↔ ∃ line, line ∈ dataLines
                   ∧ Text.fieldCount line = Text.fieldCount header
                   ∧ r = mkRow (fields header) (fields line).
Proof.
  intros Hlines header dataLines kept.
  assert (Hkept : ∀ line, line ∈ kept
                          ↔ line ∈ dataLines
                            ∧ Text.fieldCount line = Text.fieldCount header).
  { intros line. unfold kept.
    rewrite !list_elem_of_In, filter_In, Nat.eqb_eq. reflexivity. }
  assert (Hparse : parseCSV text
                   = Ok (map (fun line => mkRow (fields header) (fields line)) kept)).
  { unfold parseCSV. destruct (Nat.ltb_spec (length (linesOf text)) 2) as [Hlt | _].
    - lia.
    - cbn zeta. rewrite parseRows_filter. cbn [List.app]. do 2 f_equal.
      apply List.filter_ext. intros line. apply accepted_fieldCount. }
  split; [intros line; split; [apply fields_length | apply split_length] |].
  split; [exact Hparse |].
  split; [intros data; rewrite Hparse; intros [= <-]; apply length_map |].
  split; [exact Hkept |].
  intros r. rewrite Hparse. split.
  - intros (data & [= <-] & Hin).
    apply list_elem_of_fmap in Hin as (line & -> & Hline).
    apply Hkept in Hline as [Hline Hcount]. by exists line.
  - intros (line & Hline & Hcount & ->).
    eexists. split; [reflexivity |].
    apply list_elem_of_fmap. exists line. split; [reflexivity |].
    by apply Hkept.
Qed.

(** The columns of a row are the header names (but [__proto__]), whatever
    the values: the rows of one CSV text all have the same columns. *)
Lemma mkRow_dom_acc (headers values : list string) (acc : row) :
  length values = length headers →
  dom (fold_left (fun r hv => assign r hv.1 hv.2) (zip headers values) acc)
  = dom acc ∪ list_to_set (List.filter (fun h => negb (String.eqb h "__proto__")) headers).
Proof.
  revert values acc. induction headers as [| h headers IH];
    intros [| v values] acc Hlen; simpl in *; try discriminate.
  - by rewrite union_empty_r_L.
  - rewrite IH by lia. unfold assign.
    destruct (String.eqb h "__proto__"); simpl; [reflexivity |].
    rewrite dom_insert_L, (comm_L (∪) {[h]}), (assoc_L (∪)). reflexivity.
Qed.

Lemma parseCSV_same_columns (text : string) (data : list row) (r r' : row) :
  parseCSV text = Ok data → r ∈ data → r' ∈ data → dom r = dom r'.
Proof.
  unfold parseCSV. destruct (length (linesOf text) <? 2)%nat; [discriminate |].
  intros [= <-]. rewrite parseRows_filter. simpl.
  set (headers := fields (hd EmptyString (linesOf text))).
  assert (Hdom : ∀ x : row,
            x ∈ map (fun line => mkRow headers (fields line))
                    (List.filter (accepted headers) (tl (linesOf text))) →
            dom x = list_to_set (List.filter (fun h => negb (String.eqb h "__proto__")) headers)).
  { intros x Hx. apply list_elem_of_fmap in Hx as (line & -> & Hline).
    apply list_elem_of_In, filter_In in Hline as [_ Hacc].
    unfold mkRow. rewrite mkRow_dom_acc by (by apply Nat.eqb_eq).
    by rewrite dom_empty_L, union_empty_l_L. }
  intros Hr Hr'. by rewrite (Hdom r Hr), (Hdom r' Hr').
Qed.

(** Five data lines under a header of two fields: the line of one field,
    the line of three fields and the empty line leave no row. *)
Lemma parseCSV_field_count_witness :
  (2 ≤ length (linesOf (Sample.lines ["s,q"; "TCS,50"; "INFY"; "A,1,2"; ""; "X,7"])))%nat
  ∧ parseCSV (Sample.lines ["s,q"; "TCS,50"; "INFY"; "A,1,2"; ""; "X,7"])
    = Ok (map (fun line => mkRow (fields "s,q") (fields line)) ["TCS,50"; "X,7"])
  ∧ map Text.fieldCount ["s,q"; "TCS,50"; "INFY"; "A,1,2"; ""; "X,7"]
    = [2; 2; 1; 3; 1; 2]%nat.
Proof.
  split; [vm_compute; lia |].
  split; [| reflexivity].
  destruct (parseCSV_field_count
              (Sample.lines ["s,q"; "TCS,50"; "INFY"; "A,1,2"; ""; "X,7"]))
    as (_ & Hparse & _).
  { vm_compute. lia. }
  exact Hparse.
Defined.

End Parser.

(** ** Symbol extraction *)

Section Extraction.
Import App.

Lemma validSymbol_rawSymbol (r : row) :
  validSymbol (symbolOf r) = true ↔ is_Some (rawSymbol r).
Proof.
  unfold validSymbol, rawSymbol.
  destruct (symbolOf r) as [| | b | n | s | a]; simpl;
    rewrite ?andb_false_r; try (split; [discriminate | intros [? [=]]]).
  destruct s; simpl; split; eauto; try discriminate. intros [? [=]].
Qed.

Lemma rawSymbol_normalizeValue (r : row) (s : string) :
  rawSymbol r = Some s → normalizeValue (symbolOf r) = normalize s.
Proof.
  unfold rawSymbol. destruct (symbolOf r) as [| | b | n | t | a]; try discriminate.
  destruct (Str.isEmpty t); [discriminate |]. by intros [= ->].
Qed.

(** The three array passes of the source compute the normalised raw symbols,
    row by row. *)
Lemma symbolsOf_omap (csvData : list row) :
  symbolsOf csvData = normalize <$> omap rawSymbol csvData.
Proof.
  unfold symbolsOf. induction csvData as [| r csvData IH]; [reflexivity |].
  simpl. pose proof (validSymbol_rawSymbol r) as Hvalid.
  destruct (validSymbol (symbolOf r)); simpl.
  - destruct (proj1 Hvalid eq_refl) as [s Hs]. rewrite Hs. simpl.
    rewrite (rawSymbol_normalizeValue r s Hs). f_equal. exact IH.
  - destruct (rawSymbol r) as [s |] eqn:Hs; [| exact IH].
    destruct Hvalid as [_ Hvalid]. discriminate Hvalid. eauto.
Qed.

Lemma symbolsOf_validRows (csvData : list row) :
  symbolsOf csvData = map (fun r => normalizeValue (symbolOf r)) (validRows csvData).
Proof.
  unfold symbolsOf, validRows. induction csvData as [| r csvData IH]; [reflexivity |].
  simpl. destruct (validSymbol (symbolOf r)); simpl; [f_equal |]; exact IH.
Qed.

(** What [row.symbol || row.Symbol || row.SYMBOL] picks: the first of the
    three columns that holds a non-empty string. *)
Lemma rawSymbol_first_column (r : row) (s : string) :
  rawSymbol r = Some s ↔
  s ≠ EmptyString
  ∧ (r !! "symbol" = Some s
     ∨ (truthy (column r "symbol") = false
        ∧ (r !! "Symbol" = Some s
           ∨ (truthy (column r "Symbol") = false ∧ r !! "SYMBOL" = Some s)))).
Proof.
  unfold rawSymbol, symbolOf, jsOr, column.
  destruct (r !! "symbol") as [a |] eqn:Ha; simpl;
    [destruct a as [| ca a]; simpl |];
    (destruct (r !! "Symbol") as [b |] eqn:Hb; simpl;
     [destruct b as [| cb b]; simpl |]);
    (destruct (r !! "SYMBOL") as [c |] eqn:Hc; simpl;
     [destruct c as [| cc c]; simpl |]);
    split; try (intros [= <-]); try discriminate;
    try (split; [discriminate | by eauto 8]);
    intros [Hne Hcases]; try done;
    destruct Hcases as [[= <-] | [[=] [[= <-] | [[=] [= <-]]]]]; done.
Qed.

Lemma rawSymbol_None (r : row) :
  rawSymbol r = None ↔ symbolOf r = VUndef ∨ symbolOf r = VStr EmptyString.
Proof.
  unfold rawSymbol, symbolOf, jsOr, column.
  destruct (r !! "symbol") as [[| ca a] |]; simpl;
    (destruct (r !! "Symbol") as [[| cb b] |]; simpl);
    (destruct (r !! "SYMBOL") as [[| cc c] |]; simpl);
    split; try done; try (by auto); intros [[=] | [=]].
Qed.

(** C6 (as amended). Extraction keeps the rows whose symbol value is a
    non-empty string before normalisation, in their order and with their
    multiplicity, and produces the trimmed upper-case form of each such
    value; a row whose symbol value is absent or the empty string gives no
    symbol; extraction throws exactly when no row has a non-empty symbol
    value. *)
Theorem extractSymbols_raw_nonempty (csvData : list row) :
  extractSymbols csvData
  = (if bool_decide (omap rawSymbol csvData = [])
     then Throw (Error noSymbolsMessage)
     else Ok (normalize <$> omap rawSymbol csvData))
  ∧ Forall (fun s => s ≠ EmptyString) (omap rawSymbol csvData)
  ∧ Forall (fun r => rawSymbol r = None
                     ↔ symbolOf r = VUndef ∨ symbolOf r = VStr EmptyString)
      csvData.
Proof.
  split; [| split].
  - unfold extractSymbols. rewrite symbolsOf_omap.
    destruct (omap rawSymbol csvData) as [| s l]; reflexivity.
  - apply Forall_forall. intros s Hin.
    apply list_elem_of_omap in Hin as (r & _ & Hr).
    apply rawSymbol_first_column in Hr. tauto.
  - apply Forall_forall. intros r _. apply rawSymbol_None.
Qed.

(** C6 (as stated) fails: the quoted blank field of this two-line text is
    parsed to a one-space value, which passes the filter and is trimmed to
    the empty symbol; extraction does not throw although no symbol is
    non-empty after normalisation. *)
Lemma extractSymbols_blank_symbol :
  CSVUploader.parseCSV
    (Sample.lines ["symbol"; String Str.DQUOTE (" " +:+ String Str.DQUOTE EmptyString)])
  = Ok [{[ "symbol" := " " ]}]
  ∧ extractSymbols [{[ "symbol" := " " ]}] = Ok [EmptyString]
  ∧ ¬ (∀ csvData symbols,
          extractSymbols csvData = Ok symbols →
          Forall (fun s => s ≠ EmptyString) symbols).
Proof.
  split; [vm_compute; reflexivity |].
  split; [vm_compute; reflexivity |].
  intros Hclaim.
  specialize (Hclaim [{[ "symbol" := " " ]}] [EmptyString] eq_refl).
  by inversion Hclaim.
Qed.

End Extraction.


(** ** Upload: one settled entry per symbol *)

Section Upload.
Import App.

Lemma promiseAll_imap {A B} (f : nat → A → result B) (g : nat → A → B) (l : list A) :
  (∀ i x, f i x = Ok (g i x)) → promiseAll (imap f l) = Ok (imap g l).
Proof.
  revert f g. induction l as [| x l IH]; intros f g Hfg; [reflexivity |].
  rewrite !imap_cons. simpl. rewrite Hfg. simpl.
  rewrite (IH (f ∘ S) (g ∘ S)); [reflexivity |].
  intros i y. apply Hfg.
Qed.

Lemma quoteEntry_failed E csvData i symbol :
  failed (fetch E i (VStr symbol)) = true →
  ∃ e, quoteEntry E csvData i symbol = Throw e.
Proof.
  unfold quoteEntry, fetchData, failed.
  destruct (fetch E i (VStr symbol)) as [e | ok json]; [by eauto |].
  destruct ok; simpl; [| by eauto].
  destruct json as [[| props |] | e]; simpl; try discriminate; by eauto.
Qed.

Lemma quoteEntry_fetched E csvData i symbol :
  failed (fetch E i (VStr symbol)) = false →
  ∃ companyName ltp open high low previousClose change changePercent volume,
    quoteEntry E csvData i symbol
    = Ok (spreadRow (matchedRow csvData symbol)
            (quoteFields i symbol (now E i) companyName ltp open high low
               previousClose change changePercent volume)).
Proof.
  unfold quoteEntry, fetchData, failed.
  destruct (fetch E i (VStr symbol)) as [e | ok json]; [discriminate |].
  destruct ok; simpl; [| discriminate].
  destruct json as [[| props |] | e]; simpl; try discriminate;
    intros _; by repeat eexists.
Qed.

Lemma stockPromise_settles E csvData i symbol :
  stockPromise E csvData i symbol = Ok (settledEntry E csvData i symbol).
Proof.
  unfold stockPromise, settledEntry, tryCatch.
  by destruct (quoteEntry E csvData i symbol).
Qed.

Lemma settledEntry_cases E csvData i symbol :
  if failed (fetch E i (VStr symbol))
  then settledEntry E csvData i symbol = failedEntry csvData i symbol (now E i)
  else quoteEntry E csvData i symbol = Ok (settledEntry E csvData i symbol).
Proof.
  unfold settledEntry.
  destruct (failed (fetch E i (VStr symbol))) eqn:Hfailed.
  - by destruct (quoteEntry_failed E csvData i symbol Hfailed) as [e ->].
  - destruct (quoteEntry_fetched E csvData i symbol Hfailed)
      as (c & l & o & h & lo & p & ch & cp & v & ->). reflexivity.
Qed.

Lemma lookup_spreadRow (r : option row) (o : stock) (key : string) :
  spreadRow r o !! key
  = match r ≫= (.!! key) with
    | Some text => Some (VStr text)
    | None => o !! key
    end.
Proof.
  destruct r as [r |]; simpl; [| reflexivity].
  rewrite lookup_union, lookup_fmap.
  destruct (r !! key), (o !! key); reflexivity.
Qed.

Lemma failureFields_numeric i symbol lastUpdated key :
  key ∈ numericFields → failureFields i symbol lastUpdated !! key = Some zero.
Proof.
  unfold numericFields. intros Hkey.
  repeat (apply elem_of_cons in Hkey as [-> | Hkey]; [reflexivity |]).
  inversion Hkey.
Qed.

(** C1. Whatever the symbols and whatever each request does, the joined
    fetch step is fulfilled, never rejected: it yields one entry per symbol,
    the entry at position [i] being the one built for [symbols[i]] from the
    request at position [i] alone, so that what happens to one request
    leaves the entries of the other symbols as they are.  Every entry
    carries its symbol (or the text of the [symbol] column of the matched
    row).  When the request of a symbol fails (network error, non-success
    status, malformed body) its entry is a failure result: the failure
    fields of that symbol, whose [error] is the fixed text, under the
    columns of the matched row; when the request succeeds the fetch step
    sets no [error].  The upload handler then stores the entries and shows
    no alert. *)
Theorem fetch_all_settle (E : env) (csvData : list row) (symbols : list string) :
  promiseAll (imap (stockPromise E csvData) symbols)
  = Ok (imap (settledEntry E csvData) symbols)
  ∧ length (imap (settledEntry E csvData) symbols) = length symbols
  ∧ (∀ i, imap (settledEntry E csvData) symbols !! i
          = settledEntry E csvData i <$> symbols !! i)
  ∧ (∀ i symbol,
        settledEntry E csvData i symbol !! "symbol"
        = Some (VStr (default symbol (matchedRow csvData symbol ≫= (.!! "symbol"))))
        ∧ if failed (fetch E i (VStr symbol))
          then settledEntry E csvData i symbol
               = spreadRow (matchedRow csvData symbol)
                   (failureFields i symbol (now E i))
               ∧ failureFields i symbol (now E i) !! "symbol" = Some (VStr symbol)
               ∧ failureFields i symbol (now E i) !! "error"
                 = Some (VStr "Failed to fetch data")
               ∧ settledEntry E csvData i symbol !! "error"
                 = Some (VStr (default "Failed to fetch data"
                                 (matchedRow csvData symbol ≫= (.!! "error"))))
          else quoteEntry E csvData i symbol
               = Ok (settledEntry E csvData i symbol)
               ∧ settledEntry E csvData i symbol !! "error"
                 = VStr <$> (matchedRow csvData symbol ≫= (.!! "error")))
  ∧ (∀ E' i symbol,
        fetch E' i (VStr symbol) = fetch E i (VStr symbol) →
        now E' i = now E i →
        settledEntry E' csvData i symbol = settledEntry E csvData i symbol)
  ∧ handleCSVData E csvData
    = [SetLoading true]
      ++ match extractSymbols csvData with
         | Throw e => [Alert (message e)]
         | Ok symbols' =>
             map (fun symbol => Request (VStr symbol)) symbols'
             ++ [SetStocks (imap (settledEntry E csvData) symbols')]
         end
      ++ [SetLoading false].
Proof.
  assert (Hall : ∀ l, promiseAll (imap (stockPromise E csvData) l)
                      = Ok (imap (settledEntry E csvData) l)).
  { intros l. apply promiseAll_imap. intros i x. apply stockPromise_settles. }
  split; [apply Hall |].
  split; [apply length_imap |].
  split; [intros i; apply list_lookup_imap |].
  split; [| split].
  - intros i symbol.
    pose proof (settledEntry_cases E csvData i symbol) as Hcases.
    destruct (failed (fetch E i (VStr symbol))) eqn:Hfailed.
    + rewrite Hcases. unfold failedEntry. rewrite !lookup_spreadRow.
      split; [by destruct (matchedRow csvData symbol ≫= (.!! "symbol")) |].
      split; [reflexivity |]. split; [reflexivity |]. split; [reflexivity |].
      by destruct (matchedRow csvData symbol ≫= (.!! "error")).
    + destruct (quoteEntry_fetched E csvData i symbol Hfailed)
        as (c & l & o & h & lo & p & ch & cp & v & Hentry).
      rewrite Hentry in Hcases. injection Hcases as <-.
      rewrite !lookup_spreadRow.
      split; [by destruct (matchedRow csvData symbol ≫= (.!! "symbol")) |].
      split; [exact Hentry |].
      by destruct (matchedRow csvData symbol ≫= (.!! "error")).
  - intros E' i symbol Hfetch Hnow.
    unfold settledEntry, quoteEntry, fetchData. by rewrite Hfetch, Hnow.
  - unfold handleCSVData.
    destruct (extractSymbols csvData) as [symbols' | e]; [| reflexivity].
    by rewrite Hall.
Qed.

(** C5 (as amended). When the fetch of a symbol fails, its entry is the
    failure entry, which is built from the rows, the position, the symbol and
    the time stamp alone, with nothing of the provider's answer in it.  In
    that entry every numeric quote field is 0 and [error] is the fixed text
    [Failed to fetch data], except for a field that is also a column of the
    CSV row matched for the symbol: such a field holds the text of that
    column. *)
Theorem failed_fetch_entry (E : env) (csvData : list row) (i : nat)
    (symbol : string) :
  failed (fetch E i (VStr symbol)) = true →
  stockPromise E csvData i symbol = Ok (failedEntry csvData i symbol (now E i))
  ∧ (∀ key, key ∈ numericFields →
       failedEntry csvData i symbol (now E i) !! key
       = Some (match matchedRow csvData symbol ≫= (.!! key) with
               | Some text => VStr text
               | None => zero
               end))
  ∧ failedEntry csvData i symbol (now E i) !! "error"
    = Some (match matchedRow csvData symbol ≫= (.!! "error") with
            | Some text => VStr text
            | None => VStr "Failed to fetch data"
            end).
Proof.
  intros Hfailed. split; [| split].
  - rewrite stockPromise_settles. f_equal.
    pose proof (settledEntry_cases E csvData i symbol) as Hcases.
    by rewrite Hfailed in Hcases.
  - intros key Hkey. unfold failedEntry. rewrite lookup_spreadRow.
    destruct (matchedRow csvData symbol ≫= (.!! key)); [reflexivity |].
    by apply failureFields_numeric.
  - unfold failedEntry. rewrite lookup_spreadRow.
    by destruct (matchedRow csvData symbol ≫= (.!! "error")).
Qed.

(** With the network down, the entry of [TCS] carries the fixed error text. *)
Lemma failed_fetch_entry_witness :
  failed (fetch Sample.offline 0 (VStr "TCS")) = true
  ∧ failedEntry [{[ "symbol" := "TCS" ]}] 0 "TCS" (now Sample.offline 0) !! "error"
    = Some (VStr "Failed to fetch data").
Proof.
  split; [reflexivity |].
  destruct (failed_fetch_entry Sample.offline [{[ "symbol" := "TCS" ]}] 0 "TCS" eq_refl)
    as (_ & _ & Herror).
  rewrite Herror. reflexivity.
Defined.

(** C5 (as stated) fails: with a [volume] column in the CSV, the entry of a
    symbol whose fetch failed holds the text of that column, not 0. *)
Lemma failed_fetch_csv_volume :
  ∃ entry,
    Uploader.handleFile Sample.offline "portfolio.csv"
      (Sample.lines ["symbol,volume"; "TCS,50"])
    = [SetError None; SetLoading true; Request (VStr "TCS");
       SetStocks [entry]; SetLoading false]
    ∧ entry !! "error" = Some (VStr "Failed to fetch data")
    ∧ entry !! "volume" = Some (VStr "50")
    ∧ entry !! "volume" ≠ Some (VNum 0).
Proof.
  eexists. split; [vm_compute; reflexivity |].
  split; [vm_compute; reflexivity |].
  split; [vm_compute; reflexivity |].
  vm_compute. discriminate.
Qed.

(** *** The overlay of the CSV row *)

Lemma union_over_same (m base : stock) : m ∪ (base ∪ m) = m ∪ base.
Proof.
  apply map_eq. intros key. rewrite !lookup_union.
  destruct (m !! key), (base !! key); reflexivity.
Qed.

Lemma rowMatches_own (r : row) :
  validSymbol (symbolOf r) = true →
  rowMatches (normalizeValue (symbolOf r)) r = true.
Proof.
  unfold validSymbol, rowMatches, normalizeValue.
  destruct (symbolOf r); simpl; rewrite ?andb_false_r; try discriminate.
  intros _. apply String.eqb_refl.
Qed.

Lemma matchedRow_first (pre post : list row) (r : row) (symbol : string) :
  Forall (fun r' => rowMatches symbol r' = false) pre →
  rowMatches symbol r = true →
  matchedRow (pre ++ r :: post) symbol = Some r.
Proof.
  unfold matchedRow. intros Hpre Hr.
  induction Hpre as [| r' pre Hr' _ IH]; simpl.
  - by rewrite Hr.
  - by rewrite Hr'.
Qed.

Lemma validRows_app (l1 l2 : list row) :
  validRows (l1 ++ l2) = validRows l1 ++ validRows l2.
Proof. apply List.filter_app. Qed.

(** Every symbol of the upload has a matched row. *)
Lemma matchedRow_is_Some (csvData : list row) (symbol : string) :
  symbol ∈ symbolsOf csvData → is_Some (matchedRow csvData symbol).
Proof.
  rewrite symbolsOf_validRows. intros Hin.
  apply list_elem_of_fmap in Hin as (r & -> & Hr).
  apply list_elem_of_In, filter_In in Hr as [Hr Hvalid].
  unfold matchedRow.
  destruct (List.find _ csvData) as [r' |] eqn:Hfind; [by eauto |].
  pose proof (find_none _ _ Hfind r Hr) as Hno.
  by rewrite rowMatches_own in Hno.
Qed.

Lemma matchedRow_valid (csvData : list row) (r : row) :
  r ∈ csvData →
  validSymbol (symbolOf r) = true →
  ∃ first, matchedRow csvData (normalizeValue (symbolOf r)) = Some first.
Proof.
  intros Hr Hvalid. unfold matchedRow.
  destruct (List.find _ csvData) as [first |] eqn:Hfind; [by eauto |].
  apply list_elem_of_In in Hr.
  pose proof (find_none _ _ Hfind r Hr) as Hno.
  by rewrite rowMatches_own in Hno.
Qed.

(** What the code builds.  Let [r] be the [i]-th row with a valid symbol, so
    that [symbols[i]] is the normalised symbol of [r].  The entry at position
    [i] is the fields generated for that symbol overlaid last with the
    columns of the first row of the CSV whose normalised symbol equals
    [symbols[i]], found by [csvData.find]; that first row is [r] itself only
    when no row before [r] has the same normalised symbol. *)
Theorem merged_entry_overlay (E : env) (csvData : list row) (i : nat)
    (r : row) (symbol : string) :
  validRows csvData !! i = Some r →
  symbol = normalizeValue (symbolOf r) →
  symbolsOf csvData !! i = Some symbol
  ∧ ∃ first results base,
      matchedRow csvData symbol = Some first
      ∧ (∀ pre post, csvData = pre ++ r :: post →
           Forall (fun r' => rowMatches symbol r' = false) pre → first = r)
      ∧ promiseAll (imap (stockPromise E csvData) (symbolsOf csvData)) = Ok results
      ∧ results !! i = Some ((VStr <$> first) ∪ base)
      ∧ (dom r ⊆ dom first →
           (VStr <$> first) ∪ base = (VStr <$> first) ∪ (base ∪ (VStr <$> r)))
      ∧ (if failed (fetch E i (VStr symbol))
         then base = failureFields i symbol (now E i)
         else ∃ companyName ltp open high low previousClose change
                changePercent volume,
                base = quoteFields i symbol (now E i) companyName ltp open
                         high low previousClose change changePercent volume)
      ∧ base !! "id" = Some (VNum (numOfNat i + 1))
      ∧ base !! "symbol" = Some (VStr symbol)
      ∧ ∀ key, ((VStr <$> first) ∪ base) !! key
               = match first !! key with
                 | Some text => Some (VStr text)
                 | None => base !! key
                 end.
Proof.
  intros Hrow Hsymbol.
  assert (Hsym : symbolsOf csvData !! i = Some symbol).
  { rewrite symbolsOf_validRows, list_lookup_fmap, Hrow, Hsymbol. reflexivity. }
  assert (Hr : r ∈ csvData ∧ validSymbol (symbolOf r) = true).
  { apply list_elem_of_lookup_2 in Hrow.
    apply list_elem_of_In, filter_In in Hrow as [Hin Hvalid].
    split; [by apply list_elem_of_In | exact Hvalid]. }
  destruct Hr as [Hin Hvalid].
  destruct (matchedRow_valid csvData r Hin Hvalid) as [first Hmatch].
  rewrite <- Hsymbol in Hmatch.
  split; [exact Hsym |].
  assert (Hbase : ∃ base,
             settledEntry E csvData i symbol = (VStr <$> first) ∪ base
             ∧ (if failed (fetch E i (VStr symbol))
                then base = failureFields i symbol (now E i)
                else ∃ companyName ltp open high low previousClose change
                       changePercent volume,
                       base = quoteFields i symbol (now E i) companyName ltp
                                open high low previousClose change
                                changePercent volume)
             ∧ base !! "id" = Some (VNum (numOfNat i + 1))
             ∧ base !! "symbol" = Some (VStr symbol)).
  { pose proof (settledEntry_cases E csvData i symbol) as Hcases.
    destruct (failed (fetch E i (VStr symbol))) eqn:Hfailed.
    - exists (failureFields i symbol (now E i)).
      rewrite Hcases. unfold failedEntry. rewrite Hmatch.
      repeat split.
    - destruct (quoteEntry_fetched E csvData i symbol Hfailed)
        as (c & l & o & h & lo & p & ch & cp & v & Hentry).
      rewrite Hentry in Hcases. injection Hcases as <-.
      exists (quoteFields i symbol (now E i) c l o h lo p ch cp v).
      rewrite Hmatch. split; [reflexivity |].
      split; [by repeat eexists |]. split; reflexivity. }
  destruct Hbase as (base & Hentry & Hkind & Hid & Hsymbolfield).
  exists first, (imap (settledEntry E csvData) (symbolsOf csvData)), base.
  split; [exact Hmatch |].
  split.
  { intros pre post -> Hpre.
    rewrite (matchedRow_first pre post r symbol Hpre) in Hmatch.
    - by injection Hmatch.
    - rewrite Hsymbol. by apply rowMatches_own. }
  split.
  { apply promiseAll_imap. intros j x. apply stockPromise_settles. }
  split.
  { rewrite list_lookup_imap, Hsym. simpl. by rewrite Hentry. }
  split.
  { intros Hdom. apply map_eq. intros key.
    rewrite !lookup_union, !lookup_fmap.
    destruct (first !! key) as [text |] eqn:Hfirst; simpl.
    - by destruct (base !! key), (r !! key).
    - assert (r !! key = None) as ->.
      { apply not_elem_of_dom. intros Hkey. apply Hdom in Hkey.
        apply elem_of_dom in Hkey as [? Hkey]. congruence. }
      simpl. by destruct (base !! key). }
  split; [exact Hkind |]. split; [exact Hid |]. split; [exact Hsymbolfield |].
  intros key. rewrite lookup_union, lookup_fmap.
  destruct (first !! key), (base !! key); reflexivity.
Qed.

(** The second of two rows, with a symbol to trim and upper-case. *)
Lemma merged_entry_overlay_witness :
  validRows [{[ "symbol" := "RELIANCE"; "quantity" := "100" ]};
             {[ "symbol" := " tcs"; "volume" := "50" ]}] !! 1%nat
  = Some {[ "symbol" := " tcs"; "volume" := "50" ]}
  ∧ symbolsOf [{[ "symbol" := "RELIANCE"; "quantity" := "100" ]};
               {[ "symbol" := " tcs"; "volume" := "50" ]}] !! 1%nat
    = Some "TCS".
Proof.
  split; [reflexivity |].
  destruct (merged_entry_overlay Sample.online
              [{[ "symbol" := "RELIANCE"; "quantity" := "100" ]};
               {[ "symbol" := " tcs"; "volume" := "50" ]}] 1
              {[ "symbol" := " tcs"; "volume" := "50" ]} "TCS")
    as [Hsymbol _].
  - reflexivity.
  - reflexivity.
  - exact Hsymbol.
Defined.

(** C2. The code at the failing input: of two rows with the same symbol, the
    second does not contribute its own fields to its entry.  [csvData.find]
    stops at the first row with the symbol, so the entry at position 1 (id 2)
    carries the quantity of the first row and the quantity of its own row is
    lost, although additional columns are meant to be preserved. *)
Lemma duplicate_symbol_first_row_wins :
  ∃ e0 e1,
    CSVUploader.parseCSV (Sample.lines ["symbol,quantity"; "INFY,10"; "INFY,20"])
    = Ok [{[ "symbol" := "INFY"; "quantity" := "10" ]};
          {[ "symbol" := "INFY"; "quantity" := "20" ]}]
    ∧ Uploader.handleFile Sample.online "portfolio.csv"
        (Sample.lines ["symbol,quantity"; "INFY,10"; "INFY,20"])
      = [SetError None; SetLoading true; Request (VStr "INFY");
         Request (VStr "INFY"); SetStocks [e0; e1]; SetLoading false]
    ∧ e1 !! "id" = Some (VNum 2)
    ∧ e1 !! "quantity" = Some (VStr "10")
    ∧ e1 !! "quantity" ≠ Some (VStr "20").
Proof.
  do 2 eexists. split; [vm_compute; reflexivity |].
  split; [vm_compute; reflexivity |].
  split; [vm_compute; reflexivity |].
  split; [vm_compute; reflexivity |].
  vm_compute. discriminate.
Qed.

End Upload.

(** ** Refresh *)

Section Refresh.
Import App.

Lemma refreshedEntry_failed E stocks i symbol :
  failed (fetch E i symbol) = true →
  ∃ e, refreshedEntry E stocks i symbol = Throw e.
Proof.
  unfold refreshedEntry, fetchData, failed.
  destruct (fetch E i symbol) as [e | ok json]; [by eauto |].
  destruct ok; simpl; [| by eauto].
  destruct json as [[| props |] | e]; simpl; try discriminate; by eauto.
Qed.

Lemma refreshedEntry_fetched E stocks i symbol :
  failed (fetch E i symbol) = false →
  ∃ ltp open high low previousClose change changePercent volume,
    refreshedEntry E stocks i symbol
    = Ok (withFields (default ∅ (existing stocks symbol))
            (refreshFields (now E i) ltp open high low previousClose change
               changePercent volume)).
Proof.
  unfold refreshedEntry, fetchData, failed.
  destruct (fetch E i symbol) as [e | ok json]; [discriminate |].
  destruct ok; simpl; [| discriminate].
  destruct json as [[| props |] | e]; simpl; try discriminate;
    intros _; by repeat eexists.
Qed.

Lemma refreshPromise_settles E stocks i own :
  refreshPromise E stocks i own = Ok (settledRefresh E stocks i own).
Proof.
  unfold refreshPromise, settledRefresh, tryCatch.
  by destruct (refreshedEntry E stocks i (prop own "symbol")).
Qed.

Lemma refresh_all_settle E stocks :
  promiseAll (imap (refreshPromise E stocks) stocks)
  = Ok (imap (settledRefresh E stocks) stocks).
Proof. apply promiseAll_imap. intros i own. apply refreshPromise_settles. Qed.

(** The events of a refresh of a portfolio that is not empty. *)
Lemma refreshStockData_events E stocks :
  stocks ≠ [] →
  refreshStockData E stocks
  = [SetLoading true]
    ++ map (fun s => Request (prop s "symbol")) stocks
    ++ [SetStocks (imap (settledRefresh E stocks) stocks); SetLoading false].
Proof.
  intros Hne. unfold refreshStockData. rewrite refresh_all_settle.
  destruct stocks; [done | reflexivity].
Qed.

(** [stocks.find] stops at the first entry with the symbol. *)
Lemma existing_first (pre post : list stock) (own : stock) (symbol : value) :
  Forall (fun s => strictEq (prop s "symbol") symbol = false) pre →
  strictEq (prop own "symbol") symbol = true →
  existing (pre ++ own :: post) symbol = Some own.
Proof.
  unfold existing. intros Hpre Hown.
  induction Hpre as [| s pre Hs _ IH]; simpl.
  - by rewrite Hown.
  - by rewrite Hs.
Qed.

Lemma withFields_lookup_other (o : stock) (kvs : list (string * value)) (key : string) :
  key ∉ map fst kvs → withFields o kvs !! key = o !! key.
Proof.
  unfold withFields. revert o.
  induction kvs as [| [k v] kvs IH]; intros o Hkey; [reflexivity |].
  simpl in *. apply not_elem_of_cons in Hkey as [Hne Hkey].
  rewrite IH by exact Hkey. by apply lookup_insert_ne.
Qed.

Lemma refreshFields_keys lastUpdated ltp open high low previousClose change
    changePercent volume :
  map fst (refreshFields lastUpdated ltp open high low previousClose change
             changePercent volume)
  = refreshedKeys.
Proof. reflexivity. Qed.

(** *** The symbols of a portfolio are strings *)

Lemma settledEntry_overlay E csvData i symbol :
  ∃ base, settledEntry E csvData i symbol
          = spreadRow (matchedRow csvData symbol) base
          ∧ base !! "symbol" = Some (VStr symbol).
Proof.
  pose proof (settledEntry_cases E csvData i symbol) as Hcases.
  destruct (failed (fetch E i (VStr symbol))) eqn:Hfailed.
  - exists (failureFields i symbol (now E i)). by rewrite Hcases.
  - destruct (quoteEntry_fetched E csvData i symbol Hfailed)
      as (c & l & o & h & lo & p & ch & cp & v & Hentry).
    rewrite Hentry in Hcases. injection Hcases as <-.
    by eexists.
Qed.

(** An upload stores entries whose symbol is a string: the normalised symbol,
    or the text of the [symbol] column of the matched row. *)
Lemma upload_stringSymbols E csvData symbols :
  stringSymbols (imap (settledEntry E csvData) symbols).
Proof.
  apply Forall_forall. intros entry Hentry.
  apply elem_of_lookup_imap in Hentry as (i & symbol & -> & _).
  destruct (settledEntry_overlay E csvData i symbol) as (base & -> & Hbase).
  unfold prop. rewrite lookup_spreadRow.
  destruct (matchedRow csvData symbol ≫= _); [reflexivity |].
  by rewrite Hbase.
Qed.

Lemma existing_Some (stocks : list stock) (own : stock) (symbol : string) :
  own ∈ stocks →
  prop own "symbol" = VStr symbol →
  ∃ first, existing stocks (VStr symbol) = Some first
           ∧ prop first "symbol" = VStr symbol.
Proof.
  intros Hown Hsymbol. unfold existing.
  destruct (List.find _ stocks) as [first |] eqn:Hfind.
  - exists first. split; [reflexivity |].
    apply find_some in Hfind as [_ Heq].
    destruct (prop first "symbol"); try discriminate.
    simpl in Heq. apply String.eqb_eq in Heq. by subst.
  - apply list_elem_of_In in Hown.
    pose proof (find_none _ _ Hfind own Hown) as Hno. simpl in Hno.
    rewrite Hsymbol in Hno. simpl in Hno. by rewrite String.eqb_refl in Hno.
Qed.

(** A refresh keeps the symbols: it stores entries whose symbol is the string
    it was at the same position. *)
Lemma refresh_stringSymbols E stocks :
  stringSymbols stocks →
  stringSymbols (imap (settledRefresh E stocks) stocks)
  ∧ ∀ i own, stocks !! i = Some own →
             prop (settledRefresh E stocks i own) "symbol" = prop own "symbol".
Proof.
  intros Hstocks.
  assert (Hkeep : ∀ i own, stocks !! i = Some own →
            prop (settledRefresh E stocks i own) "symbol" = prop own "symbol").
  { intros i own Hown.
    assert (own ∈ stocks) as Hin by (apply list_elem_of_lookup; eauto).
    pose proof (proj1 (Forall_forall _ _) Hstocks own Hin) as Hstring.
    simpl in Hstring.
    destruct (prop own "symbol") as [| | b | n | symbol | a] eqn:Hsymbol;
      try discriminate Hstring.
    destruct (existing_Some stocks own symbol Hin Hsymbol)
      as (first & Hfirst & Hfirstsymbol).
    unfold settledRefresh. rewrite Hsymbol.
    destruct (failed (fetch E i (VStr symbol))) eqn:Hfailed.
    - destruct (refreshedEntry_failed E stocks i (VStr symbol) Hfailed) as [e ->].
      by rewrite Hfirst.
    - destruct (refreshedEntry_fetched E stocks i (VStr symbol) Hfailed)
        as (l & o & h & lo & p & ch & cp & v & ->).
      rewrite Hfirst. change (default ∅ (Some first)) with first.
      unfold prop at 1. rewrite withFields_lookup_other.
      + exact Hfirstsymbol.
      + rewrite refreshFields_keys. unfold refreshedKeys, numericFields. simpl.
        intros Hkey. repeat (apply elem_of_cons in Hkey as [[=] | Hkey]).
        inversion Hkey. }
  split; [| exact Hkeep].
  apply Forall_forall. intros entry Hentry.
  apply elem_of_lookup_imap in Hentry as (i & own & -> & Hown).
  rewrite (Hkeep i own Hown).
  apply (proj1 (Forall_forall _ _) Hstocks).
  apply list_elem_of_lookup. eauto.
Qed.

(** Where [stocks.find] returns the entry of the position.  Take an entry of
    the portfolio whose symbol is a string that no entry before it carries.
    If the refresh fetch at its position fails, the refreshed portfolio has
    as many entries as before and holds that very entry, unchanged, at the
    same position; the failure is swallowed (the results are stored and no
    alert is shown). *)
Theorem refresh_failure_keeps_entry (E : env) (pre post : list stock)
    (own : stock) (i : nat) (symbol : string) :
  prop own "symbol" = VStr symbol →
  i = length pre →
  Forall (fun s => strictEq (prop s "symbol") (VStr symbol) = false) pre →
  failed (fetch E i (VStr symbol)) = true →
  ∃ results,
    promiseAll (imap (refreshPromise E (pre ++ own :: post)) (pre ++ own :: post))
    = Ok results
    ∧ length results = length (pre ++ own :: post)
    ∧ results !! i = Some own
    ∧ refreshStockData E (pre ++ own :: post)
      = [SetLoading true]
        ++ map (fun s => Request (prop s "symbol")) (pre ++ own :: post)
        ++ [SetStocks results; SetLoading false].
Proof.
  intros Hsymbol Hi Hpre Hfailed.
  exists (imap (settledRefresh E (pre ++ own :: post)) (pre ++ own :: post)).
  split; [apply refresh_all_settle |].
  split; [apply length_imap |].
  split.
  - rewrite list_lookup_imap, Hi, list_lookup_middle by reflexivity. simpl.
    f_equal. unfold settledRefresh. rewrite Hsymbol.
    destruct (refreshedEntry_failed E (pre ++ own :: post) (length pre)
                (VStr symbol)) as [e ->]; [by rewrite <- Hi |].
    rewrite (existing_first pre post own (VStr symbol) Hpre); [reflexivity |].
    rewrite Hsymbol. simpl. apply String.eqb_refl.
  - apply refreshStockData_events. by destruct pre.
Qed.

(** Where [stocks.find] returns the entry of the position.  Take an entry of
    the portfolio whose symbol is a string that no entry before it carries.
    If the refresh fetch at its position succeeds, the entry at that
    position is the old entry with the price, volume and time fields written
    anew and every other field as it was: in particular the [error] field is
    what it was before, so an error marker left by a failed initial load
    stays set. *)
Theorem refresh_success_keeps_error (E : env) (pre post : list stock)
    (own : stock) (i : nat) (symbol : string) :
  prop own "symbol" = VStr symbol →
  i = length pre →
  Forall (fun s => strictEq (prop s "symbol") (VStr symbol) = false) pre →
  failed (fetch E i (VStr symbol)) = false →
  ∃ results entry ltp open high low previousClose change changePercent volume,
    promiseAll (imap (refreshPromise E (pre ++ own :: post)) (pre ++ own :: post))
    = Ok results
    ∧ results !! i = Some entry
    ∧ entry = withFields own
                (refreshFields (now E i) ltp open high low previousClose
                   change changePercent volume)
    ∧ (∀ key, key ∉ refreshedKeys → entry !! key = own !! key)
    ∧ entry !! "error" = own !! "error"
    ∧ (is_Some (own !! "error") → is_Some (entry !! "error")).
Proof.
  intros Hsymbol Hi Hpre Hfetched.
  destruct (refreshedEntry_fetched E (pre ++ own :: post) i (VStr symbol) Hfetched)
    as (ltp & open & high & low & previousClose & change & changePercent
        & volume & Hentry).
  rewrite (existing_first pre post own (VStr symbol) Hpre) in Hentry
    by (rewrite Hsymbol; simpl; apply String.eqb_refl).
  simpl in Hentry.
  set (entry := withFields own
                  (refreshFields (now E i) ltp open high low previousClose
                     change changePercent volume)) in *.
  assert (Hother : ∀ key, key ∉ refreshedKeys → entry !! key = own !! key).
  { intros key Hkey. apply withFields_lookup_other.
    by rewrite refreshFields_keys. }
  assert (Herror : entry !! "error" = own !! "error").
  { apply Hother. unfold refreshedKeys, numericFields. simpl.
    intros Hin. repeat (apply elem_of_cons in Hin as [[=] | Hin]).
    inversion Hin. }
  exists (imap (settledRefresh E (pre ++ own :: post)) (pre ++ own :: post)),
    entry, ltp, open, high, low, previousClose, change, changePercent, volume.
  split; [apply refresh_all_settle |].
  split.
  { rewrite list_lookup_imap, Hi, list_lookup_middle by reflexivity. simpl.
    f_equal. unfold settledRefresh. rewrite Hsymbol, <- Hi, Hentry. reflexivity. }
  split; [reflexivity |]. split; [exact Hother |]. split; [exact Herror |].
  by rewrite Herror.
Qed.

(** With the network down, the second of two entries stays as it is. *)
Lemma refresh_failure_keeps_entry_witness :
  failed (fetch Sample.offline 1 (VStr "INFY")) = true
  ∧ ∃ results,
      promiseAll
        (imap (refreshPromise Sample.offline
                 ([{[ "id" := VNum 1; "symbol" := VStr "TCS" ]}]
                  ++ [{[ "id" := VNum 2; "symbol" := VStr "INFY" ]}]))
              ([{[ "id" := VNum 1; "symbol" := VStr "TCS" ]}]
               ++ [{[ "id" := VNum 2; "symbol" := VStr "INFY" ]}]))
      = Ok results
      ∧ results !! 1%nat = Some {[ "id" := VNum 2; "symbol" := VStr "INFY" ]}.
Proof.
  split; [reflexivity |].
  destruct (refresh_failure_keeps_entry Sample.offline
              [{[ "id" := VNum 1; "symbol" := VStr "TCS" ]}] []
              {[ "id" := VNum 2; "symbol" := VStr "INFY" ]} 1 "INFY")
    as (results & Hall & _ & Hentry & _).
  - reflexivity.
  - reflexivity.
  - repeat constructor.
  - reflexivity.
  - exists results. split; [exact Hall | exact Hentry].
Defined.

(** With the network up, the error marker of the second entry stays. *)
Lemma refresh_success_keeps_error_witness :
  failed (fetch Sample.online 1 (VStr "INFY")) = false
  ∧ ∃ results entry,
      promiseAll
        (imap (refreshPromise Sample.online
                 ([{[ "id" := VNum 1; "symbol" := VStr "TCS" ]}]
                  ++ [{[ "symbol" := VStr "INFY"; "error" := VStr "Failed to fetch data" ]}]))
              ([{[ "id" := VNum 1; "symbol" := VStr "TCS" ]}]
               ++ [{[ "symbol" := VStr "INFY"; "error" := VStr "Failed to fetch data" ]}]))
      = Ok results
      ∧ results !! 1%nat = Some entry
      ∧ entry !! "error" = Some (VStr "Failed to fetch data").
Proof.
  split; [reflexivity |].
  destruct (refresh_success_keeps_error Sample.online
              [{[ "id" := VNum 1; "symbol" := VStr "TCS" ]}] []
              {[ "symbol" := VStr "INFY"; "error" := VStr "Failed to fetch data" ]}
              1 "INFY")
    as (results & entry & ? & ? & ? & ? & ? & ? & ? & ? & Hall & Hentry & _ & _
        & Herror & _).
  - reflexivity.
  - reflexivity.
  - repeat constructor.
  - reflexivity.
  - exists results, entry. split; [exact Hall |]. split; [exact Hentry |].
    rewrite Herror. reflexivity.
Defined.

(** C3. The code at the failing input: in a portfolio made from two CSV rows
    with the same symbol, a refresh whose fetches fail puts the first entry
    at both positions.  The [catch] block returns what [stocks.find] finds
    for the symbol, the first entry, and reaches its fallback
    [stocks[index]] only when nothing is found: the second entry (id 2) is
    no longer in the portfolio. *)
Lemma refresh_failure_duplicate_symbol :
  ∃ e0 e1,
    Uploader.handleFile Sample.online "portfolio.csv"
      (Sample.lines ["symbol"; "INFY"; "INFY"])
    = [SetError None; SetLoading true; Request (VStr "INFY");
       Request (VStr "INFY"); SetStocks [e0; e1]; SetLoading false]
    ∧ failed (fetch Sample.offline 1 (prop e1 "symbol")) = true
    ∧ refreshStockData Sample.offline [e0; e1]
      = [SetLoading true; Request (VStr "INFY"); Request (VStr "INFY");
         SetStocks [e0; e0]; SetLoading false]
    ∧ e1 ∉ [e0; e0].
Proof.
  do 2 eexists. split; [vm_compute; reflexivity |].
  split; [vm_compute; reflexivity |].
  split; [vm_compute; reflexivity |].
  intros Hin.
  assert (Hid : ∀ e : stock, e ∈ [settledEntry Sample.online
                                     [{[ "symbol" := "INFY" ]}; {[ "symbol" := "INFY" ]}]
                                     0 "INFY";
                                  settledEntry Sample.online
                                     [{[ "symbol" := "INFY" ]}; {[ "symbol" := "INFY" ]}]
                                     0 "INFY"] →
                strictEq (prop e "id") (VNum 1) = true).
  { intros e He. repeat (apply elem_of_cons in He as [-> | He]; [reflexivity |]).
    inversion He. }
  apply Hid in Hin. vm_compute in Hin. discriminate Hin.
Qed.

(** C9. The code at the failing input: in a portfolio made from two CSV rows
    with the same symbol, where only the second entry carries an error
    marker, a refresh whose fetches succeed builds the entry at the second
    position from what [stocks.find] finds for the symbol, the first entry:
    the marker of the second entry is gone, with its id. *)
Lemma refresh_success_duplicate_symbol :
  ∃ e0 e1 r0 r1,
    Uploader.handleFile Sample.firstOnly "portfolio.csv"
      (Sample.lines ["symbol"; "INFY"; "INFY"])
    = [SetError None; SetLoading true; Request (VStr "INFY");
       Request (VStr "INFY"); SetStocks [e0; e1]; SetLoading false]
    ∧ e1 !! "error" = Some (VStr "Failed to fetch data")
    ∧ failed (fetch Sample.online 1 (prop e1 "symbol")) = false
    ∧ refreshStockData Sample.online [e0; e1]
      = [SetLoading true; Request (VStr "INFY"); Request (VStr "INFY");
         SetStocks [r0; r1]; SetLoading false]
    ∧ r1 !! "error" = None
    ∧ e1 !! "id" = Some (VNum 2)
    ∧ r1 !! "id" = Some (VNum 1).
Proof.
  do 4 eexists. split; [vm_compute; reflexivity |].
  split; [vm_compute; reflexivity |].
  split; [vm_compute; reflexivity |].
  split; [vm_compute; reflexivity |].
  split; [vm_compute; reflexivity |].
  split; vm_compute; reflexivity.
Qed.

End Refresh.

(** ** The session state machine *)

Section Session.
Import App.

Lemma extractSymbols_Ok_nonempty (csvData : list row) (symbols : list string) :
  extractSymbols csvData = Ok symbols → symbols ≠ [].
Proof.
  unfold extractSymbols.
  destruct (symbolsOf csvData) as [| x l]; simpl; [discriminate |].
  by intros [= <-].
Qed.

Lemma imap_nonempty {A B} (f : nat → A → B) (l : list A) :
  l ≠ [] → imap f l ≠ [].
Proof. by destruct l. Qed.

(** The events of an upload whose extraction succeeded. *)
Lemma handleCSVData_events E csvData symbols :
  extractSymbols csvData = Ok symbols →
  handleCSVData E csvData
  = SetLoading true
    :: (map Request (map VStr symbols)
        ++ [SetStocks (imap (settledEntry E csvData) symbols); SetLoading false]).
Proof.
  intros Hsymbols. unfold handleCSVData. rewrite Hsymbols.
  rewrite (promiseAll_imap _ (settledEntry E csvData))
    by (intros; apply stockPromise_settles).
  rewrite map_map. simpl. by rewrite <- app_assoc.
Qed.

Lemma run_app (s : session) (evs evs' : list event) :
  run s (evs ++ evs') = run (run s evs) evs'.
Proof. apply fold_left_app. Qed.

Lemma run_requests (s : session) (symbols : list value) :
  run s (map Request symbols)
  = {| stocks := stocks s; loading := loading s; error := error s;
       alerts := alerts s; requests := requests s ++ symbols |}.
Proof.
  revert s. induction symbols as [| v symbols IH]; intros s.
  - simpl. rewrite app_nil_r. by destruct s.
  - simpl. rewrite IH. simpl. by rewrite <- app_assoc.
Qed.

(** *** The pieces of the handlers *)

Lemma upload_script E csvData symbols :
  extractSymbols csvData = Ok symbols →
  Runs.handleCSVData E csvData
  = Script [SetLoading true :: map Request (map VStr symbols)]
      (Some [SetStocks (imap (settledEntry E csvData) symbols); SetLoading false]).
Proof.
  intros Hsymbols. unfold Runs.handleCSVData. rewrite Hsymbols.
  rewrite (promiseAll_imap _ (settledEntry E csvData))
    by (intros; apply stockPromise_settles).
  by rewrite map_map.
Qed.

Lemma refresh_script E (l : list stock) :
  l ≠ [] →
  Runs.refreshStockData E l
  = Script [SetLoading true :: map Request (map (fun s => prop s "symbol") l)]
      (Some [SetStocks (imap (settledRefresh E l) l); SetLoading false]).
Proof.
  intros Hl. unfold Runs.refreshStockData.
  destruct l as [| e l]; [done |]. cbn [length Nat.eqb].
  rewrite refresh_all_settle. by rewrite map_map.
Qed.


Lemma flat_refreshStockData E (l : list stock) :
  flat (Runs.refreshStockData E l) = refreshStockData E l.
Proof.
  unfold flat, Runs.refreshStockData, refreshStockData.
  destruct (length l =? 0)%nat; [reflexivity |].
  cbn [sync resumed concat default]. rewrite app_nil_r.
  cbn [List.app]. rewrite <- ?app_assoc. reflexivity.
Qed.


(** *** Transitions *)


Lemma phaseOf_loading (s : session) : loading s = true → phaseOf s = Loading.
Proof. unfold phaseOf. by intros ->. Qed.





End Session.

(** ** Refresh of an empty portfolio *)

(** C10. Refreshing when the portfolio holds no entry does nothing: the
    handler performs no action at all, so no request is sent, and the
    portfolio, the loading flag and the rest of the session are as before. *)
Theorem refresh_empty_noop (E : env) (s : session) :
  stocks s = [] →
  App.refreshStockData E (stocks s) = []
  ∧ (∀ symbol, Request symbol ∉ App.refreshStockData E (stocks s))
  ∧ requests (run s (App.refreshStockData E (stocks s))) = requests s
  ∧ stocks (run s (App.refreshStockData E (stocks s))) = stocks s
  ∧ loading (run s (App.refreshStockData E (stocks s))) = loading s
  ∧ run s (App.refreshStockData E (stocks s)) = s.
Proof.
  intros Hempty. rewrite Hempty. unfold App.refreshStockData. simpl.
  split; [reflexivity |].
  split; [intros symbol Hin; inversion Hin |].
  repeat split; assumption.
Qed.

(** The session right after start-up. *)
Lemma refresh_empty_noop_witness :
  stocks initial = []
  ∧ App.refreshStockData Sample.offline (stocks initial) = [].
Proof.
  split; [reflexivity |].
  apply (proj1 (refresh_empty_noop Sample.offline initial eq_refl)).
Defined.

(** ** The arithmetic of the proxy *)

Section Arithmetic.
Import App.




(** A quote of everyday size: 1845 after a close of 1800 is a change of 45
    and of 2.5 per cent; 2450.5 after 2400.25 is a change of 50.25 and of
    2.09 per cent, and here the tolerance of 0.01 is met. *)
Example proxy_everyday_quotes :
  (Proxy.json <$> Proxy.responseData "INFY" (Proxy.StockData 1845 1810 1860 1805 1845 1800 120000))
  !! "change" = Some (VNum 45)
  ∧ (Proxy.json <$> Proxy.responseData "INFY" (Proxy.StockData 1845 1810 1860 1805 1845 1800 120000))
    !! "changePercent" = Some (VNum 2.5)
  ∧ (Proxy.json <$> Proxy.responseData "RELIANCE"
                      (Proxy.StockData 2450.5 2400 2460 2390 2450.5 2400.25 1000))
    !! "change" = Some (VNum 50.25)
  ∧ (Proxy.json <$> Proxy.responseData "RELIANCE"
                      (Proxy.StockData 2450.5 2400 2460 2390 2450.5 2400.25 1000))
    !! "changePercent" = Some (VNum (209 / 100))
  ∧ meetsTolerance (QArith_base.Qmake 24505 10) (QArith_base.Qmake 240025 100)
      (VNum 50.25) (VNum (209 / 100))
    = true.
Proof. repeat split; vm_compute; reflexivity. Qed.


End Arithmetic.

(** * Further properties *)

(** ** Characters of strings *)

Section Characters.

Local Abbreviation chars := list_ascii_of_string.

Lemma includes_char (c : ascii) (s : string) :
  Text.includes s (Text.char c) = true ↔ c ∈ chars s.
Proof.
  induction s as [| d s IH]; simpl.
  - split; [discriminate | by intros ?%elem_of_nil].
  - rewrite elem_of_cons, <- IH. unfold Text.char at 1.
    destruct (Ascii.eqb_spec c d) as [-> | Hne]; simpl.
    + replace (Text.startsWith s EmptyString) with true by (by destruct s).
      split; auto.
    + unfold Text.char. split; [by auto | intros [? | ?]; done].
Qed.

Lemma includes_char_false (c : ascii) (s : string) :
  Text.includes s (Text.char c) = false ↔ c ∉ chars s.
Proof.
  rewrite <- includes_char. by destruct (Text.includes s (Text.char c)).
Qed.

Lemma split_nonempty (sep : ascii) (s : string) : Str.split sep s ≠ [].
Proof.
  destruct s as [| c s]; simpl; [done |].
  destruct (Ascii.eqb c sep); [done |]. by destruct (Str.split sep s).
Qed.

(** A piece between separators holds no separator, and only characters of
    the string that was split. *)
Lemma split_pieces (sep : ascii) (s piece : string) :
  piece ∈ Str.split sep s →
  (sep ∉ chars piece) ∧ (∀ c, c ∈ chars piece → c ∈ chars s).
Proof.
  revert piece. induction s as [| d s IH]; intros piece; simpl.
  - intros ->%list_elem_of_singleton. simpl. split; [apply not_elem_of_nil | done].
  - destruct (Ascii.eqb_spec d sep) as [-> | Hne].
    + intros [-> | Hin]%elem_of_cons.
      * simpl. split; [apply not_elem_of_nil | by intros c ?%elem_of_nil].
      * destruct (IH piece Hin) as [Hsep Hsub].
        split; [exact Hsep |]. intros c Hc. right. by apply Hsub.
    + destruct (Str.split sep s) as [| w ws] eqn:Hsplit.
      { by destruct (split_nonempty sep s). }
      intros [-> | Hin]%elem_of_cons.
      * destruct (IH w) as [Hsep Hsub]; [by left |]. simpl. split.
        -- rewrite not_elem_of_cons. split; [congruence | exact Hsep].
        -- intros c [-> | Hc]%elem_of_cons; [by left |]. right. by apply Hsub.
      * destruct (IH piece) as [Hsep Hsub]; [by right |].
        split; [exact Hsep |]. intros c Hc. right. by apply Hsub.
Qed.

(** A string splits in two pieces or more exactly when it holds the
    separator. *)
Lemma split_two (sep : ascii) (s : string) :
  (2 ≤ length (Str.split sep s))%nat ↔ sep ∈ chars s.
Proof.
  induction s as [| d s IH]; simpl.
  - split; [lia | by intros ?%elem_of_nil].
  - destruct (Ascii.eqb_spec d sep) as [-> | Hne].
    + split; [intros _; by left |]. intros _. simpl.
      pose proof (split_nonempty sep s). destruct (Str.split sep s); [done | simpl; lia].
    + rewrite elem_of_cons, <- IH.
      destruct (Str.split sep s) as [| w ws] eqn:Hsplit.
      { by destruct (split_nonempty sep s). }
      simpl. split; [by auto | intros [? | ?]; [congruence | done]].
Qed.

Lemma trimStart_chars (s : string) (c : ascii) :
  c ∈ chars (Str.trimStart s) → c ∈ chars s.
Proof.
  induction s as [| d s IH]; simpl; [done |].
  destruct (Str.isWhiteSpace d); [| done]. intros Hc. right. by apply IH.
Qed.

Lemma trimEnd_chars (s : string) (c : ascii) :
  c ∈ chars (Str.trimEnd s) → c ∈ chars s.
Proof.
  induction s as [| d s IH]; simpl; [done |].
  destruct (Str.isWhiteSpace d && Str.isEmpty (Str.trimEnd s)); simpl.
  - by intros ?%elem_of_nil.
  - intros [-> | Hc]%elem_of_cons; [by left |]. right. by apply IH.
Qed.

Lemma trim_chars (s : string) (c : ascii) :
  c ∈ chars (Str.trim s) → c ∈ chars s.
Proof. intros Hc. by apply trimStart_chars, trimEnd_chars. Qed.

Lemma stripQuotes_chars (s : string) (c : ascii) :
  c ∈ chars (Str.stripQuotes s) → c ≠ Str.DQUOTE ∧ c ∈ chars s.
Proof.
  induction s as [| d s IH]; simpl; [by intros ?%elem_of_nil |].
  destruct (Ascii.eqb_spec d Str.DQUOTE) as [-> | Hne]; simpl.
  - intros Hc. destruct (IH Hc). split; [done | by right].
  - intros [-> | Hc]%elem_of_cons; [split; [done | by left] |].
    destruct (IH Hc). split; [done | by right].
Qed.

End Characters.

(** ** More on the CSV parser *)

Section ParserEdges.
Import CSVUploader.

Local Abbreviation chars := list_ascii_of_string.

Lemma chars_append (a b : string) : chars (a +:+ b) = chars a ++ chars b.
Proof. induction a as [| c a IH]; simpl; [done | by rewrite IH]. Qed.

Lemma elem_of_chars_split (c : ascii) (s : string) :
  c ∈ chars s ↔ ∃ a b, s = a +:+ String c b.
Proof.
  split.
  - induction s as [| d s IH]; simpl; [by intros ?%elem_of_nil |].
    intros [-> | Hc]%elem_of_cons.
    + by exists EmptyString, s.
    + destruct (IH Hc) as (a & b & ->). by exists (String d a), b.
  - intros (a & b & ->). rewrite chars_append. simpl.
    apply elem_of_app. right. by left.
Qed.

(** X1. [parseCSV] throws exactly when the trimmed text holds no line feed,
    and then with its one fixed message: a header alone, an empty text and a
    text of white space are refused, any text with a line break inside is
    parsed. *)
Theorem parseCSV_throws_iff (text : string) :
  ((∃ e, parseCSV text = Throw e)
   ↔ ∀ a b, Str.trim text ≠ a +:+ String Str.LF b)
  ∧ ∀ e, parseCSV text = Throw e →
         message e = "CSV file must contain at least a header row and one data row.".
Proof.
  unfold parseCSV, linesOf.
  pose proof (split_two Str.LF (Str.trim text)) as Htwo.
  rewrite elem_of_chars_split in Htwo.
  destruct (Nat.ltb_spec (length (Str.split Str.LF (Str.trim text))) 2) as [Hlt | Hge].
  - split; [| by intros e [= <-]].
    split; [| by eauto].
    intros _ a b Heq. apply proj2 in Htwo. specialize (Htwo (ex_intro _ a (ex_intro _ b Heq))). lia.
  - split; [| by intros e [=]].
    split; [by intros [e [=]] |].
    intros Hno. destruct (proj1 Htwo Hge) as (a & b & Heq). by destruct (Hno a b).
Qed.

Lemma mkRow_lookup_acc (headers values : list string) (acc : row) (key v : string) :
  fold_left (fun r hv => assign r hv.1 hv.2) (zip headers values) acc !! key = Some v →
  acc !! key = Some v ∨ (key ∈ headers ∧ v ∈ values ∧ key ≠ "__proto__").
Proof.
  revert values acc. induction headers as [| h headers IH];
    intros [| x values] acc; simpl; auto.
  intros Hlookup. apply IH in Hlookup as [Hacc | (Hk & Hv & Hp)].
  - unfold assign in Hacc. destruct (String.eqb_spec h "__proto__") as [-> | Hne].
    + by left.
    + destruct (decide (h = key)) as [-> | Hkey].
      * rewrite lookup_insert_eq in Hacc. injection Hacc as ->.
        right. split; [by left |]. split; [by left | done].
      * rewrite lookup_insert_ne in Hacc by done. by left.
  - right. split; [by right |]. split; [by right | done].
Qed.

Lemma parseCSV_row_origin (text : string) (data : list row) (r : row) :
  parseCSV text = Ok data → r ∈ data →
  ∃ line, line ∈ tl (linesOf text)
          ∧ r = mkRow (fields (hd EmptyString (linesOf text))) (fields line)
          ∧ length (fields line) = length (fields (hd EmptyString (linesOf text))).
Proof.
  unfold parseCSV. destruct (length (linesOf text) <? 2)%nat; [discriminate |].
  intros [= <-]. rewrite parseRows_filter. simpl.
  intros (line & -> & Hline)%list_elem_of_fmap.
  apply list_elem_of_In, filter_In in Hline as [Hline Hacc].
  exists line. split; [by apply list_elem_of_In |]. split; [done |].
  by apply Nat.eqb_eq.
Qed.

Lemma fields_plain (line field : string) :
  field ∈ fields line →
  (Str.COMMA ∉ chars field) ∧ (Str.DQUOTE ∉ chars field)
  ∧ (∀ c, c ∈ chars field → c ∈ chars line).
Proof.
  unfold fields. intros (piece & -> & Hpiece)%list_elem_of_fmap.
  destruct (split_pieces _ _ _ Hpiece) as [Hsep Hsub].
  split; [| split].
  - intros [_ Hc]%stripQuotes_chars. by apply trim_chars in Hc.
  - by intros [? _]%stripQuotes_chars.
  - intros c [_ Hc]%stripQuotes_chars. by apply Hsub, trim_chars.
Qed.

Lemma lines_plain (text line : string) :
  line ∈ linesOf text → Str.LF ∉ chars line.
Proof. intros Hline. by destruct (split_pieces _ _ _ Hline). Qed.

Lemma hd_tl_elem {A} (d x : A) (l : list A) :
  (2 ≤ length l)%nat → hd d l ∈ l.
Proof. destruct l; simpl; [lia | by left]. Qed.

(** X2. Whatever the text, no column name and no value of a parsed row holds
    a comma, a line feed or a double quote, and no column is named
    [__proto__]. *)
Theorem parseCSV_cells_plain (text : string) (data : list row) (r : row)
    (key v : string) :
  parseCSV text = Ok data →
  r ∈ data →
  r !! key = Some v →
  Text.includes v (Text.char Str.COMMA) = false
  ∧ Text.includes v (Text.char Str.LF) = false
  ∧ Text.includes v (Text.char Str.DQUOTE) = false
  ∧ Text.includes key (Text.char Str.COMMA) = false
  ∧ Text.includes key (Text.char Str.LF) = false
  ∧ Text.includes key (Text.char Str.DQUOTE) = false
  ∧ key ≠ "__proto__".
Proof.
  intros Hparse Hr Hlookup.
  assert (Hlines : (2 ≤ length (linesOf text))%nat).
  { unfold parseCSV in Hparse.
    destruct (Nat.ltb_spec (length (linesOf text)) 2); [discriminate | done]. }
  destruct (parseCSV_row_origin text data r Hparse Hr) as (line & Hline & -> & _).
  apply mkRow_lookup_acc in Hlookup as [Hempty | (Hkey & Hv & Hproto)].
  { by rewrite lookup_empty in Hempty. }
  assert (Hline' : line ∈ linesOf text).
  { destruct (linesOf text); [done | by right]. }
  pose proof (lines_plain text line Hline') as Hlf.
  pose proof (lines_plain text _ (hd_tl_elem EmptyString EmptyString _ Hlines)) as Hlf0.
  destruct (fields_plain _ _ Hv) as (Hc & Hq & Hsub).
  destruct (fields_plain _ _ Hkey) as (Hc0 & Hq0 & Hsub0).
  rewrite !includes_char_false.
  repeat split; try done.
  - intros Hin. by apply Hlf, Hsub.
  - intros Hin. by apply Hlf0, Hsub0.
Qed.

(** A text of two lines and two columns. *)
Lemma parseCSV_cells_plain_witness :
  parseCSV (Sample.lines ["s,q"; "TCS,50"]) = Ok [mkRow ["s"; "q"] ["TCS"; "50"]]
  ∧ mkRow ["s"; "q"] ["TCS"; "50"] !! "q" = Some "50"
  ∧ Text.includes "50" (Text.char Str.COMMA) = false.
Proof.
  split; [vm_compute; reflexivity |]. split; [vm_compute; reflexivity |].
  apply (parseCSV_cells_plain (Sample.lines ["s,q"; "TCS,50"])
           [mkRow ["s"; "q"] ["TCS"; "50"]] (mkRow ["s"; "q"] ["TCS"; "50"])
           "q" "50").
  - vm_compute. reflexivity.
  - apply list_elem_of_singleton. exact eq_refl.
  - vm_compute. reflexivity.
Defined.

End ParserEdges.

(** ** Writing a table and parsing it back *)

Section RoundTrip.
Import CSVUploader.

Local Abbreviation chars := list_ascii_of_string.

Lemma append_cons (c : ascii) (a b : string) :
  String c a +:+ b = String c (a +:+ b).
Proof. reflexivity. Qed.

Lemma append_empty_l (b : string) : EmptyString +:+ b = b.
Proof. reflexivity. Qed.

Lemma split_plain (sep : ascii) (x : string) :
  sep ∉ chars x → Str.split sep x = [x].
Proof.
  induction x as [| c x IH]; simpl; [done |].
  intros [Hne Hx]%not_elem_of_cons.
  destruct (Ascii.eqb_spec c sep) as [-> | _]; [done |].
  by rewrite IH.
Qed.

Lemma split_app (sep : ascii) (x rest : string) :
  sep ∉ chars x →
  Str.split sep (x +:+ String sep rest) = x :: Str.split sep rest.
Proof.
  induction x as [| c x IH]; rewrite ?append_cons, ?append_empty_l; simpl.
  - intros _. by rewrite Ascii.eqb_refl.
  - intros [Hne Hx]%not_elem_of_cons.
    destruct (Ascii.eqb_spec c sep) as [-> | _]; [done |].
    by rewrite IH.
Qed.

Lemma split_join (sep : ascii) (l : list string) :
  l ≠ [] →
  Forall (fun x => sep ∉ chars x) l →
  Str.split sep (Str.join (Text.char sep) l) = l.
Proof.
  intros Hne Hl. induction Hl as [| x l Hx Hl IH]; [done |].
  destruct l as [| y l].
  - simpl. by apply split_plain.
  - change (Str.join (Text.char sep) (x :: y :: l))
      with (x +:+ String sep (Str.join (Text.char sep) (y :: l))).
    rewrite split_app by done. by rewrite IH.
Qed.

Lemma trimEnd_length (s : string) :
  (String.length (Str.trimEnd s) ≤ String.length s)%nat.
Proof.
  induction s as [| c s IH]; simpl; [lia |].
  destruct (Str.isWhiteSpace c && Str.isEmpty (Str.trimEnd s)); simpl; lia.
Qed.

Lemma trimStart_length (s : string) :
  Str.trimStart s = s ∨ (String.length (Str.trimStart s) < String.length s)%nat.
Proof.
  induction s as [| c s IH]; simpl; [by left |].
  destruct (Str.isWhiteSpace c); [| by left].
  right. destruct IH as [-> | ?]; lia.
Qed.

(** A trimmed cell that is not empty starts and ends with characters that
    are not white space. *)
Lemma trim_fixed (cell : string) :
  Str.trim cell = cell →
  Str.trimStart cell = cell ∧ Str.trimEnd cell = cell.
Proof.
  unfold Str.trim. intros Htrim.
  destruct (trimStart_length cell) as [Hstart | Hlt].
  - by rewrite Hstart in Htrim.
  - pose proof (trimEnd_length (Str.trimStart cell)) as Hle.
    rewrite Htrim in Hle. lia.
Qed.

Lemma trimStart_app (a b : string) :
  a ≠ EmptyString → Str.trimStart a = a → Str.trimStart (a +:+ b) = a +:+ b.
Proof.
  destruct a as [| c a]; [done |]. rewrite append_cons. simpl. intros _ Hstart.
  destruct (Str.isWhiteSpace c); [| done].
  pose proof (trimStart_length a) as [Heq | Hlt].
  - rewrite Heq in Hstart. exfalso.
    apply (f_equal String.length) in Hstart. simpl in Hstart. lia.
  - rewrite Hstart in Hlt. simpl in Hlt. lia.
Qed.

Lemma trimEnd_app (a b : string) :
  b ≠ EmptyString → Str.trimEnd b = b → Str.trimEnd (a +:+ b) = a +:+ b.
Proof.
  intros Hne Hend.
  induction a as [| c a IH]; rewrite ?append_cons, ?append_empty_l; simpl; [done |].
  rewrite IH.
  assert (Str.isEmpty (a +:+ b) = false) as ->
    by (destruct a; [by destruct b | done]).
  by rewrite andb_false_r.
Qed.

Lemma append_empty_r (a : string) : a +:+ EmptyString = a.
Proof.
  induction a as [| c a IH]; [done |]. by rewrite append_cons, IH.
Qed.

Lemma join_head (sep x : string) (l : list string) :
  ∃ rest, Str.join sep (x :: l) = x +:+ rest.
Proof.
  destruct l as [| y l].
  - exists EmptyString. simpl. by rewrite append_empty_r.
  - by eexists.
Qed.

Lemma append_assoc (a b c : string) : (a +:+ b) +:+ c = a +:+ (b +:+ c).
Proof.
  induction a as [| d a IH]; [done |]. by rewrite !append_cons, IH.
Qed.

Lemma join_last (sep x : string) (l : list string) :
  ∃ pre, Str.join sep (l ++ [x]) = pre +:+ x.
Proof.
  induction l as [| y l IH]; [by exists EmptyString |].
  destruct IH as [pre Hpre].
  exists (y +:+ sep +:+ pre).
  change ((y :: l) ++ [x]) with (y :: (l ++ [x])).
  destruct (l ++ [x]) as [| z l'] eqn:Hl; [by destruct l |].
  change (Str.join sep (y :: z :: l')) with (y +:+ sep +:+ Str.join sep (z :: l')).
  by rewrite Hpre, !append_assoc.
Qed.

Lemma plain_spec (cell : string) :
  Text.plain cell = true →
  cell ≠ EmptyString ∧ Str.trim cell = cell
  ∧ (Str.COMMA ∉ chars cell) ∧ (Str.LF ∉ chars cell)
  ∧ (Str.DQUOTE ∉ chars cell).
Proof.
  unfold Text.plain. rewrite !andb_true_iff, !negb_true_iff, !includes_char_false.
  intros ((((Hne & Htrim) & ?) & ?) & ?).
  repeat split; try done.
  - by destruct cell.
  - by apply String.eqb_eq.
Qed.

Lemma stripQuotes_plain (s : string) :
  Str.DQUOTE ∉ chars s → Str.stripQuotes s = s.
Proof.
  induction s as [| c s IH]; simpl; [done |].
  intros [Hne Hs]%not_elem_of_cons.
  destruct (Ascii.eqb_spec c Str.DQUOTE) as [-> | _]; [done |].
  by rewrite IH.
Qed.

(** A line made of plain cells splits back into them. *)
Lemma fields_join (cells : list string) :
  cells ≠ [] →
  Forall (fun c => Text.plain c = true) cells →
  fields (Str.join (Text.char Str.COMMA) cells) = cells.
Proof.
  intros Hne Hcells. unfold fields. rewrite split_join; [| done |].
  - induction Hcells as [| c cells Hc _ IH]; [done |].
    destruct (plain_spec c Hc) as (_ & Htrim & _ & _ & Hq).
    simpl. rewrite Htrim, stripQuotes_plain by done. f_equal.
    destruct cells; [done | by apply IH].
  - eapply Forall_impl; [exact Hcells |]. intros c Hc.
    by destruct (plain_spec c Hc) as (_ & _ & ? & _).
Qed.

Lemma join_chars (sep : ascii) (l : list string) (c : ascii) :
  c ∈ chars (Str.join (Text.char sep) l) →
  c = sep ∨ ∃ x, x ∈ l ∧ c ∈ chars x.
Proof.
  induction l as [| x l IH]; simpl; [by intros ?%elem_of_nil |].
  destruct l as [| y l].
  - intros Hc. right. exists x. split; [by left | done].
  - rewrite chars_append. intros [Hc | Hc]%elem_of_app.
    + right. exists x. split; [by left | done].
    + simpl in Hc. apply elem_of_cons in Hc as [-> | Hc]; [by left |].
      destruct (IH Hc) as [-> | (z & Hz & Hcz)]; [by left |].
      right. exists z. split; [by right | done].
Qed.

Lemma mkRow_skip (headers values : list string) (acc : row) (key : string) :
  key ∉ headers →
  fold_left (fun r hv => assign r hv.1 hv.2) (zip headers values) acc !! key
  = acc !! key.
Proof.
  revert values acc. induction headers as [| h headers IH];
    intros [| v values] acc Hkey; simpl; try done.
  apply not_elem_of_cons in Hkey as [Hne Hkey].
  rewrite IH by done. unfold assign.
  destruct (String.eqb h "__proto__"); [done |]. by rewrite lookup_insert_ne.
Qed.

(** Under distinct column names, each value is found under its name. *)
Lemma mkRow_lookup (headers values : list string) (i : nat) (h c : string) :
  NoDup headers →
  "__proto__" ∉ headers →
  headers !! i = Some h →
  values !! i = Some c →
  mkRow headers values !! h = Some c.
Proof.
  unfold mkRow. generalize (∅ : row) as acc.
  revert values i. induction headers as [| h' headers IH];
    intros [| v values] [| i] acc Hnodup Hproto Hh Hc; simplify_eq/=.
  - apply NoDup_cons in Hnodup as [Hnotin _].
    apply not_elem_of_cons in Hproto as [Hne _].
    rewrite mkRow_skip by done. unfold assign.
    destruct (String.eqb_spec h "__proto__"); [done |].
    by rewrite lookup_insert_eq.
  - apply NoDup_cons in Hnodup as [_ Hnodup].
    apply not_elem_of_cons in Hproto as [_ Hproto].
    by eapply IH.
Qed.

Lemma csvText_lines (table : list (list string)) :
  table ≠ [] →
  Forall (fun row => Forall (fun c => Text.plain c = true) row) table →
  Str.split Str.LF (csvText table)
  = map (Str.join (Text.char Str.COMMA)) table.
Proof.
  intros Hne Hplain. unfold csvText. apply split_join.
  - by destruct table.
  - apply Forall_fmap. eapply Forall_impl; [exact Hplain |].
    intros row Hrow Hlf. simpl in Hlf.
    apply join_chars in Hlf as [[=] | (cell & Hcell & Hlf)].
    rewrite Forall_forall in Hrow.
    by destruct (plain_spec cell (Hrow cell Hcell)) as (_ & _ & _ & ? & _).
Qed.

Lemma csvText_trimmed (header : list string) (rows : list (list string)) :
  header ≠ [] →
  Forall (fun row => row ≠ [] ∧ Forall (fun c => Text.plain c = true) row)
    (header :: rows) →
  Str.trim (csvText (header :: rows)) = csvText (header :: rows).
Proof.
  intros Hheader Hplain. unfold Str.trim.
  assert (Hstart : Str.trimStart (csvText (header :: rows))
                   = csvText (header :: rows)).
  { unfold csvText. simpl map.
    destruct (join_head (Text.char Str.LF) (Str.join (Text.char Str.COMMA) header)
                (map (Str.join (Text.char Str.COMMA)) rows)) as [rest1 ->].
    destruct header as [| h0 header]; [done |].
    destruct (join_head (Text.char Str.COMMA) h0 header) as [rest2 ->].
    rewrite append_assoc.
    apply Forall_cons in Hplain as [[_ Hh] _].
    apply Forall_cons in Hh as [Hh0 _].
    destruct (plain_spec h0 Hh0) as (Hne & Htrim & _).
    apply trimStart_app; [done |]. by apply trim_fixed. }
  rewrite Hstart.
  destruct (exists_last (l := header :: rows)) as (table' & lastrow & Htable); [done |].
  rewrite Htable in *. unfold csvText. rewrite map_app. simpl map.
  destruct (join_last (Text.char Str.LF) (Str.join (Text.char Str.COMMA) lastrow)
              (map (Str.join (Text.char Str.COMMA)) table')) as [pre1 ->].
  apply Forall_app in Hplain as [_ Hlast].
  apply Forall_cons in Hlast as [[Hne Hlast] _].
  destruct (exists_last Hne) as (row' & clast & ->).
  destruct (join_last (Text.char Str.COMMA) clast row') as [pre2 ->].
  rewrite <- append_assoc.
  apply Forall_app in Hlast as [_ Hclast].
  apply Forall_cons in Hclast as [Hclast _].
  destruct (plain_spec clast Hclast) as (Hcne & Htrim & _).
  apply trimEnd_app; [done |]. by apply trim_fixed.
Qed.

Lemma accepted_rows (header : list string) (rows : list (list string)) :
  header ≠ [] →
  Forall (fun row => length row = length header
                     ∧ Forall (fun c => Text.plain c = true) row) rows →
  map (fun line => mkRow header (fields line))
      (List.filter (accepted header) (map (Str.join (Text.char Str.COMMA)) rows))
  = map (mkRow header) rows.
Proof.
  intros Hheader Hrows.
  induction Hrows as [| r rs [Hlen Hr] _ IH]; [done |].
  assert (Hr' : r ≠ []) by (destruct r, header; simpl in *; done).
  simpl. unfold accepted at 1.
  rewrite fields_join by done.
  rewrite (proj2 (Nat.eqb_eq _ _) Hlen). simpl.
  by rewrite fields_join, IH.
Qed.

(** The text of a table of plain cells is parsed back to its rows. *)
Lemma parseCSV_csvText (header : list string) (rows : list (list string)) :
  header ≠ [] →
  rows ≠ [] →
  Forall (fun c => Text.plain c = true) header →
  Forall (fun row => length row = length header
                     ∧ Forall (fun c => Text.plain c = true) row) rows →
  parseCSV (csvText (header :: rows)) = Ok (map (mkRow header) rows).
Proof.
  intros Hheader Hrows Hhplain Hrplain.
  assert (Hall : Forall (fun row => row ≠ [] ∧ Forall (fun c => Text.plain c = true) row)
                   (header :: rows)).
  { constructor; [done |]. eapply Forall_impl; [exact Hrplain |].
    intros row [Hlen Hrow]. split; [| done].
    destruct row, header; simpl in *; done. }
  unfold parseCSV, linesOf.
  rewrite csvText_trimmed by done.
  rewrite csvText_lines; [| done |].
  2: { eapply Forall_impl; [exact Hall |]. by intros row [_ ?]. }
  rewrite parseRows_filter.
  destruct rows as [| row rows]; [done |].
  change (map ?f (header :: row :: rows)) with (f header :: map f (row :: rows)).
  cbn [hd tl length Nat.ltb Nat.leb].
  rewrite fields_join by done.
  rewrite accepted_rows by done. reflexivity.
Qed.

(** X3. A table written the way [downloadTemplate] writes it (cells joined
    by commas, rows by line feeds) is parsed back to its rows, provided that
    it has a data row, that every row has as many cells as the header and
    that every cell is plain (not empty, trimmed, without comma, line feed
    or double quote).  If moreover the column names are distinct and none
    is [__proto__], each cell is found in its row under its column name. *)
Theorem csvText_round_trip (header : list string) (rows : list (list string)) :
  header ≠ [] →
  rows ≠ [] →
  Forall (fun c => Text.plain c = true) header →
  Forall (fun row => length row = length header
                     ∧ Forall (fun c => Text.plain c = true) row) rows →
  parseCSV (csvText (header :: rows)) = Ok (map (mkRow header) rows)
  ∧ (NoDup header → "__proto__" ∉ header →
     ∀ row i h c, row ∈ rows → header !! i = Some h → row !! i = Some c →
                  mkRow header row !! h = Some c).
Proof.
  intros Hheader Hrows Hhplain Hrplain.
  split; [by apply parseCSV_csvText |].
  intros Hnodup Hproto row i h c _. by apply mkRow_lookup.
Qed.

(** The template offered for download. *)
Lemma csvText_round_trip_witness :
  parseCSV csvContent = Ok (map (mkRow (hd [] templateData)) (tl templateData)).
Proof.
  apply (csvText_round_trip (hd [] templateData) (tl templateData)).
  - discriminate.
  - discriminate.
  - unfold templateData. simpl. repeat constructor.
  - unfold templateData. simpl. repeat constructor.
Defined.

End RoundTrip.

(** ** More on uploads *)

Section UploadMore.
Import App.

(** X4. Every symbol of an upload has a matched row: the first row of the
    CSV whose normalised symbol is that symbol.  Whether the fetch succeeds
    or fails, every column of that row is in the stored entry, with its
    text: additional columns are preserved. *)
Theorem upload_keeps_columns (E : env) (csvData : list row) (i : nat)
    (symbol : string) :
  symbolsOf csvData !! i = Some symbol →
  ∃ r, matchedRow csvData symbol = Some r
       ∧ r ∈ csvData
       ∧ rowMatches symbol r = true
       ∧ ∀ key text, r !! key = Some text →
                     settledEntry E csvData i symbol !! key = Some (VStr text).
Proof.
  intros Hsymbol.
  destruct (matchedRow_is_Some csvData symbol) as [r Hr].
  { by eapply list_elem_of_lookup_2. }
  exists r. split; [exact Hr |].
  unfold matchedRow in Hr. pose proof (find_some _ _ Hr) as [Hin Hmatch].
  split; [by apply list_elem_of_In |]. split; [exact Hmatch |].
  intros key text Hkey.
  destruct (settledEntry_overlay E csvData i symbol) as (base & -> & _).
  rewrite lookup_spreadRow. fold (matchedRow csvData symbol). unfold matchedRow.
  rewrite Hr. simpl. by rewrite Hkey.
Qed.

Lemma upload_keeps_columns_witness :
  symbolsOf [{[ "s" := "x"; "symbol" := " tcs" ]}] !! 0%nat = Some "TCS"
  ∧ ∃ r, matchedRow [{[ "s" := "x"; "symbol" := " tcs" ]}] "TCS" = Some r.
Proof.
  split; [vm_compute; reflexivity |].
  destruct (upload_keeps_columns Sample.offline
              [{[ "s" := "x"; "symbol" := " tcs" ]}] 0 "TCS")
    as (r & Hr & _).
  - vm_compute. reflexivity.
  - by exists r.
Defined.

(** X5. The [symbol] field of a stored entry is the text of the [symbol]
    column of the matched row when it has one, and the normalised symbol
    otherwise; a later refresh requests that field.  So after uploading a
    CSV whose column is named [symbol], a refresh asks for the raw texts of
    that column, not for the normalised symbols the upload asked for. *)
Theorem refresh_requests_symbol_field (E E' : env) (csvData : list row)
    (symbols : list string) :
  extractSymbols csvData = Ok symbols →
  (∀ i symbol,
      prop (settledEntry E csvData i symbol) "symbol"
      = VStr (default symbol (matchedRow csvData symbol ≫= (.!! "symbol"))))
  ∧ ∃ results results',
      handleCSVData E csvData
      = [SetLoading true] ++ map (fun symbol => Request (VStr symbol)) symbols
        ++ [SetStocks results; SetLoading false]
      ∧ refreshStockData E' results
        = [SetLoading true]
          ++ map (fun symbol =>
                    Request (VStr (default symbol
                                     (matchedRow csvData symbol ≫= (.!! "symbol")))))
                 symbols
          ++ [SetStocks results'; SetLoading false].
Proof.
  intros Hsymbols.
  assert (Hfield : ∀ i symbol,
            prop (settledEntry E csvData i symbol) "symbol"
            = VStr (default symbol (matchedRow csvData symbol ≫= (.!! "symbol")))).
  { intros i symbol.
    destruct (settledEntry_overlay E csvData i symbol) as (base & -> & Hbase).
    unfold prop. rewrite lookup_spreadRow.
    destruct (matchedRow csvData symbol ≫= _); [reflexivity |].
    by rewrite Hbase. }
  split; [exact Hfield |].
  exists (imap (settledEntry E csvData) symbols),
    (imap (settledRefresh E' (imap (settledEntry E csvData) symbols))
       (imap (settledEntry E csvData) symbols)).
  split.
  { rewrite (handleCSVData_events E csvData symbols Hsymbols).
    rewrite map_map. reflexivity. }
  rewrite refreshStockData_events.
  - f_equal. f_equal. apply list_eq. intros j.
    rewrite !list_lookup_fmap, list_lookup_imap.
    destruct (symbols !! j); simpl; [by rewrite Hfield | done].
  - apply imap_nonempty. by eapply extractSymbols_Ok_nonempty.
Qed.

(** A CSV with a lower-case symbol: the entry keeps the text of the column. *)
Lemma refresh_requests_symbol_field_witness :
  extractSymbols [{[ "symbol" := "infy" ]}] = Ok ["INFY"]
  ∧ prop (settledEntry Sample.offline [{[ "symbol" := "infy" ]}] 0 "INFY") "symbol"
    = VStr "infy".
Proof.
  split; [vm_compute; reflexivity |].
  destruct (refresh_requests_symbol_field Sample.offline Sample.online
              [{[ "symbol" := "infy" ]}] ["INFY"]) as [Hfield _].
  - vm_compute. reflexivity.
  - rewrite Hfield. vm_compute. reflexivity.
Defined.

End UploadMore.

(** ** More on refresh *)

Section RefreshMore.
Import App.

(** X6. A refresh of a portfolio that is not empty, whose symbols are
    strings, always completes: it raises the loading flag, sends one request
    per entry, stores as many entries as there were, each with the symbol it
    had at its position, lowers the flag and shows no alert. *)
Theorem refresh_keeps_shape (E : env) (s : session) :
  stocks s ≠ [] →
  stringSymbols (stocks s) →
  ∃ results,
    refreshStockData E (stocks s)
    = [SetLoading true]
      ++ map (fun e => Request (prop e "symbol")) (stocks s)
      ++ [SetStocks results; SetLoading false]
    ∧ stocks (run s (refreshStockData E (stocks s))) = results
    ∧ loading (run s (refreshStockData E (stocks s))) = false
    ∧ alerts (run s (refreshStockData E (stocks s))) = alerts s
    ∧ length results = length (stocks s)
    ∧ map (fun e => prop e "symbol") results
      = map (fun e => prop e "symbol") (stocks s)
    ∧ stringSymbols results.
Proof.
  intros Hne Hstrings.
  destruct (refresh_stringSymbols E (stocks s) Hstrings) as [Hresults Hkeep].
  exists (imap (settledRefresh E (stocks s)) (stocks s)).
  pose proof (refreshStockData_events E (stocks s) Hne) as Hevents.
  split; [exact Hevents |].
  assert (Hrun : ∀ (reqs : list value) (t : session) results,
            stocks (run t (map Request reqs ++ [SetStocks results; SetLoading false]))
            = results
            ∧ loading (run t (map Request reqs ++ [SetStocks results; SetLoading false]))
              = false
            ∧ alerts (run t (map Request reqs ++ [SetStocks results; SetLoading false]))
              = alerts t).
  { intros reqs. induction reqs as [| req reqs IH]; intros t results; [done |].
    simpl. apply (IH (apply t (Request req))). }
  rewrite Hevents.
  rewrite <- (map_map (fun e => prop e "symbol") Request).
  change ([SetLoading true] ++ ?evs) with (SetLoading true :: evs).
  destruct (Hrun (map (fun e => prop e "symbol") (stocks s))
              (apply s (SetLoading true))
              (imap (settledRefresh E (stocks s)) (stocks s)))
    as (Hstocks & Hloading & Halerts).
  split; [exact Hstocks |]. split; [exact Hloading |]. split; [exact Halerts |].
  split; [apply length_imap |]. split; [| exact Hresults].
  apply list_eq. intros i. rewrite !list_lookup_fmap, list_lookup_imap.
  destruct (stocks s !! i) as [own |] eqn:Hown; simpl; [| done].
  by rewrite (Hkeep i own Hown).
Qed.

Lemma refresh_keeps_shape_witness :
  ∃ results,
    stocks (run (Session [{[ "symbol" := VStr "TCS" ]}] false None [] [])
              (refreshStockData Sample.online [{[ "symbol" := VStr "TCS" ]}]))
    = results
    ∧ length results = 1%nat.
Proof.
  destruct (refresh_keeps_shape Sample.online
              (Session [{[ "symbol" := VStr "TCS" ]}] false None [] []))
    as (results & _ & Hstocks & _ & _ & Hlength & _).
  - discriminate.
  - repeat constructor.
  - exists results. split; [exact Hstocks | exact Hlength].
Defined.

Lemma withFields_union (o : stock) (kvs : list (string * value)) :
  withFields o kvs = list_to_map (reverse kvs) ∪ o.
Proof.
  unfold withFields. revert o.
  induction kvs as [| [k v] kvs IH]; intros o; simpl.
  - symmetry. apply (left_id_L ∅ (∪)).
  - rewrite IH, reverse_cons, list_to_map_app. simpl.
    rewrite <- (assoc_L (∪)). f_equal.
    rewrite insert_empty. by rewrite <- insert_union_singleton_l.
Qed.

(** Writing the same properties twice is writing them once. *)
Lemma withFields_idemp (o : stock) (kvs : list (string * value)) :
  withFields (withFields o kvs) kvs = withFields o kvs.
Proof.
  rewrite !withFields_union, (assoc_L (∪)). f_equal. apply (idemp (∪)).
Qed.

(** What a refresh reads off the answer at a position does not depend on
    the portfolio. *)
Lemma refreshedEntry_same_fields E (stocks1 stocks2 : list stock) i symbol :
  match refreshedEntry E stocks1 i symbol with
  | Ok e1 =>
      ∃ kvs, e1 = withFields (default ∅ (existing stocks1 symbol)) kvs
             ∧ refreshedEntry E stocks2 i symbol
               = Ok (withFields (default ∅ (existing stocks2 symbol)) kvs)
  | Throw e => refreshedEntry E stocks2 i symbol = Throw e
  end.
Proof.
  unfold refreshedEntry, fetchData.
  destruct (fetch E i symbol) as [e | ok json]; [done |].
  destruct ok; [| done].
  destruct json as [[| props |] | e];
    unfold mbind, result_bind, getProp; cbn beta iota; try done;
    eexists; split; reflexivity.
Qed.

Lemma existing_unique (stocks : list stock) (i : nat) (own : stock) :
  stringSymbols stocks →
  NoDup (map (fun e => prop e "symbol") stocks) →
  stocks !! i = Some own →
  existing stocks (prop own "symbol") = Some own.
Proof.
  intros Hstrings Hnodup Hown. unfold stringSymbols in Hstrings.
  rewrite <- (take_drop_middle stocks i own Hown) at 1.
  apply existing_first.
  - apply Forall_forall. intros e He.
    apply list_elem_of_lookup in He as [j Hj].
    pose proof (lookup_lt_Some _ _ _ Hj) as Hlt. rewrite length_take in Hlt.
    rewrite lookup_take_lt in Hj by lia.
    assert (prop e "symbol" ≠ prop own "symbol") as Hne.
    { intros Heq.
      assert (j = i); [| lia].
      eapply (NoDup_lookup _ j i (prop e "symbol") Hnodup);
        rewrite list_lookup_fmap; [by rewrite Hj | by rewrite Hown, Heq]. }
    assert (e ∈ stocks) as He by (apply list_elem_of_lookup; eauto).
    assert (own ∈ stocks) as Ho by (apply list_elem_of_lookup; eauto).
    rewrite Forall_forall in Hstrings.
    pose proof (Hstrings e He) as Hse. pose proof (Hstrings own Ho) as Hso.
    simpl in Hse, Hso.
    destruct (prop e "symbol"), (prop own "symbol"); try discriminate.
    simpl. apply String.eqb_neq. congruence.
  - assert (own ∈ stocks) as Ho by (apply list_elem_of_lookup; eauto).
    rewrite Forall_forall in Hstrings. pose proof (Hstrings own Ho) as Hso.
    simpl in Hso. destruct (prop own "symbol"); try discriminate.
    simpl. apply String.eqb_refl.
Qed.

(** X7. On a portfolio whose symbols are distinct strings, refreshing twice
    against the same answers and time stamps stores the same portfolio as
    refreshing once. *)
Theorem refresh_idempotent (E : env) (stocks : list stock) :
  stringSymbols stocks →
  NoDup (map (fun e => prop e "symbol") stocks) →
  imap (settledRefresh E (imap (settledRefresh E stocks) stocks))
       (imap (settledRefresh E stocks) stocks)
  = imap (settledRefresh E stocks) stocks.
Proof.
  intros Hstrings Hnodup.
  destruct (refresh_stringSymbols E stocks Hstrings) as [Hstrings' Hkeep].
  set (R := imap (settledRefresh E stocks) stocks) in *.
  assert (Hsymbols : map (fun e => prop e "symbol") R
                     = map (fun e => prop e "symbol") stocks).
  { apply list_eq. intros i. unfold R.
    rewrite !list_lookup_fmap, list_lookup_imap.
    destruct (stocks !! i) as [own |] eqn:Hown; simpl; [| done].
    by rewrite (Hkeep i own Hown). }
  assert (Hnodup' : NoDup (map (fun e => prop e "symbol") R))
    by (by rewrite Hsymbols).
  apply list_eq. intros i. rewrite list_lookup_imap.
  destruct (R !! i) as [r |] eqn:Hr; simpl; [| done]. f_equal.
  pose proof Hr as Hr'. unfold R in Hr'. rewrite list_lookup_imap in Hr'.
  destruct (stocks !! i) as [own |] eqn:Hown; simplify_eq/=.
  fold R in Hr.
  pose proof (Hkeep i own Hown) as Hsame.
  pose proof (existing_unique stocks i own Hstrings Hnodup Hown) as Hexisting.
  pose proof (existing_unique R i _ Hstrings' Hnodup' Hr) as Hexisting'.
  rewrite Hsame in Hexisting'.
  unfold settledRefresh at 1. rewrite Hsame.
  pose proof (refreshedEntry_same_fields E stocks R i (prop own "symbol")) as Hfields.
  unfold settledRefresh in *.
  destruct (refreshedEntry E stocks i (prop own "symbol")) as [e1 | e].
  - destruct Hfields as (kvs & -> & ->).
    rewrite Hexisting, Hexisting'. simpl. rewrite Hexisting. simpl.
    apply withFields_idemp.
  - rewrite Hfields, Hexisting'. rewrite Hexisting. reflexivity.
Qed.

Lemma refresh_idempotent_witness :
  imap (settledRefresh Sample.online
          (imap (settledRefresh Sample.online [{[ "symbol" := VStr "TCS" ]}])
             [{[ "symbol" := VStr "TCS" ]}]))
       (imap (settledRefresh Sample.online [{[ "symbol" := VStr "TCS" ]}])
          [{[ "symbol" := VStr "TCS" ]}])
  = imap (settledRefresh Sample.online [{[ "symbol" := VStr "TCS" ]}])
      [{[ "symbol" := VStr "TCS" ]}].
Proof.
  apply (refresh_idempotent Sample.online [{[ "symbol" := VStr "TCS" ]}]).
  - repeat constructor.
  - repeat constructor. by intros ?%elem_of_nil.
Defined.

End RefreshMore.



(** ** The symbols of an upload are in normal form *)

Section NormalForm.
Import App.

Lemma upperChar_whiteSpace (c : ascii) :
  Str.isWhiteSpace (Str.upperChar c) = Str.isWhiteSpace c.
Proof. destruct c as [[] [] [] [] [] [] [] []]; reflexivity. Qed.

Lemma upperChar_idemp (c : ascii) :
  Str.upperChar (Str.upperChar c) = Str.upperChar c.
Proof. destruct c as [[] [] [] [] [] [] [] []]; reflexivity. Qed.

Lemma toUpperCase_idemp (s : string) :
  Str.toUpperCase (Str.toUpperCase s) = Str.toUpperCase s.
Proof.
  unfold Str.toUpperCase. induction s as [| c s IH]; simpl; [done |].
  by rewrite upperChar_idemp, IH.
Qed.

Lemma trimStart_toUpperCase (s : string) :
  Str.trimStart (Str.toUpperCase s) = Str.toUpperCase (Str.trimStart s).
Proof.
  unfold Str.toUpperCase. induction s as [| c s IH]; simpl; [done |].
  rewrite upperChar_whiteSpace. by destruct (Str.isWhiteSpace c).
Qed.

Lemma trimEnd_toUpperCase (s : string) :
  Str.trimEnd (Str.toUpperCase s) = Str.toUpperCase (Str.trimEnd s).
Proof.
  unfold Str.toUpperCase. induction s as [| c s IH]; simpl; [done |].
  rewrite upperChar_whiteSpace, IH.
  assert (Str.isEmpty (Str.mapChars Str.upperChar (Str.trimEnd s))
          = Str.isEmpty (Str.trimEnd s)) as -> by (by destruct (Str.trimEnd s)).
  by destruct (Str.isWhiteSpace c && Str.isEmpty (Str.trimEnd s)).
Qed.

Lemma trimStart_idemp (s : string) :
  Str.trimStart (Str.trimStart s) = Str.trimStart s.
Proof.
  induction s as [| c s IH]; simpl; [done |].
  destruct (Str.isWhiteSpace c) eqn:Hc; [done |]. simpl. by rewrite Hc.
Qed.

Lemma trimEnd_idemp (s : string) :
  Str.trimEnd (Str.trimEnd s) = Str.trimEnd s.
Proof.
  induction s as [| c s IH]; simpl; [done |].
  destruct (Str.isWhiteSpace c && Str.isEmpty (Str.trimEnd s)) eqn:Hc; [done |].
  simpl. by rewrite IH, Hc.
Qed.

(** Trimming the end keeps a start that is already trimmed. *)
Lemma trimStart_trimEnd (s : string) :
  Str.trimStart s = s → Str.trimStart (Str.trimEnd s) = Str.trimEnd s.
Proof.
  destruct s as [| c s]; [done |]. simpl.
  destruct (Str.isWhiteSpace c) eqn:Hc.
  - intros Hstart. exfalso.
    destruct (trimStart_length s) as [Heq | Hlt].
    + rewrite Heq in Hstart. apply (f_equal String.length) in Hstart.
      simpl in Hstart. lia.
    + rewrite Hstart in Hlt. simpl in Hlt. lia.
  - intros _. simpl. by rewrite Hc.
Qed.

Lemma trim_idemp (s : string) : Str.trim (Str.trim s) = Str.trim s.
Proof.
  unfold Str.trim.
  rewrite (trimStart_trimEnd (Str.trimStart s)) by apply trimStart_idemp.
  apply trimEnd_idemp.
Qed.

Lemma trim_toUpperCase (s : string) :
  Str.trim (Str.toUpperCase s) = Str.toUpperCase (Str.trim s).
Proof.
  unfold Str.trim. by rewrite trimStart_toUpperCase, trimEnd_toUpperCase.
Qed.

Lemma normalize_idemp (s : string) : normalize (normalize s) = normalize s.
Proof.
  unfold normalize.
  by rewrite trim_toUpperCase, toUpperCase_idemp, trim_idemp.
Qed.

(** *** ASCII text *)

Lemma upperChar_ascii (c : ascii) :
  (nat_of_ascii (Str.upperChar c) <? 128)%nat = (nat_of_ascii c <? 128)%nat.
Proof. destruct c as [[] [] [] [] [] [] [] []]; reflexivity. Qed.

Lemma toUpperCase_ascii (s : string) :
  Text.isAscii (Str.toUpperCase s) = Text.isAscii s.
Proof.
  unfold Str.toUpperCase. induction s as [| c s IH]; [reflexivity |].
  cbn [Str.mapChars Text.isAscii]. by rewrite upperChar_ascii, IH.
Qed.

Lemma trimStart_ascii (s : string) :
  Text.isAscii s = true → Text.isAscii (Str.trimStart s) = true.
Proof.
  induction s as [| c s IH]; [done |]. cbn [Str.trimStart].
  destruct (Str.isWhiteSpace c); [| done].
  cbn [Text.isAscii]. intros [_ Hs]%andb_prop. by apply IH.
Qed.

Lemma trimEnd_ascii (s : string) :
  Text.isAscii s = true → Text.isAscii (Str.trimEnd s) = true.
Proof.
  induction s as [| c s IH]; [done |]. cbn [Str.trimEnd Text.isAscii].
  intros [Hc Hs]%andb_prop.
  destruct (Str.isWhiteSpace c && Str.isEmpty (Str.trimEnd s)); [done |].
  cbn [Text.isAscii]. by rewrite Hc, IH.
Qed.

Lemma normalize_ascii (s : string) :
  Text.isAscii s = true → Text.isAscii (normalize s) = true.
Proof.
  intros Hs. unfold normalize, Str.trim.
  rewrite toUpperCase_ascii. by apply trimEnd_ascii, trimStart_ascii.
Qed.

(** X8. In a CSV whose symbol cells are ASCII text, on which the string
    primitives modelled here are those of JavaScript, every symbol an upload
    extracts, and so every symbol it requests, is ASCII text in normal form:
    trimming it or upper-casing it again changes nothing. *)
Theorem symbols_normal_form (csvData : list row) (symbol : string) :
  Forall (fun r => ∀ raw, rawSymbol r = Some raw → Text.isAscii raw = true)
    csvData →
  symbol ∈ symbolsOf csvData →
  Text.isAscii symbol = true
  ∧ normalize symbol = symbol
  ∧ Str.trim symbol = symbol
  ∧ Str.toUpperCase symbol = symbol.
Proof.
  intros Hascii. rewrite symbolsOf_omap.
  intros (raw & -> & Hraw)%list_elem_of_fmap.
  apply list_elem_of_omap in Hraw as (r & Hr & Hsome).
  rewrite Forall_forall in Hascii.
  split; [by eapply normalize_ascii, Hascii |].
  split; [apply normalize_idemp |]. unfold normalize. split.
  - by rewrite trim_toUpperCase, trim_idemp.
  - apply toUpperCase_idemp.
Qed.

Lemma symbols_normal_form_witness :
  "TCS" ∈ symbolsOf [{[ "symbol" := " tcs" ]}]
  ∧ Text.isAscii "TCS" = true
  ∧ normalize "TCS" = "TCS".
Proof.
  assert (Hin : "TCS" ∈ symbolsOf [{[ "symbol" := " tcs" ]}]).
  { apply list_elem_of_singleton. vm_compute. reflexivity. }
  split; [exact Hin |].
  destruct (symbols_normal_form [{[ "symbol" := " tcs" ]}] "TCS")
    as (Hascii & Hnormal & _).
  - constructor; [| constructor]. intros raw Hraw.
    vm_compute in Hraw. by injection Hraw as <-.
  - exact Hin.
  - split; [exact Hascii | exact Hnormal].
Defined.

End NormalForm.

(** ** From the file to the portfolio *)

Section Pipeline.
Import CSVUploader App.

Lemma mkRow_lookup_key (headers values : list string) (i : nat) (h c : string) :
  NoDup headers →
  h ≠ "__proto__" →
  headers !! i = Some h →
  values !! i = Some c →
  mkRow headers values !! h = Some c.
Proof.
  unfold mkRow. generalize (∅ : row) as acc.
  revert values i. induction headers as [| h' headers IH];
    intros [| v values] [| i] acc Hnodup Hproto Hh Hc; simplify_eq/=.
  - apply NoDup_cons in Hnodup as [Hnotin _].
    rewrite mkRow_skip by done. unfold assign.
    destruct (String.eqb_spec h "__proto__"); [done |].
    by rewrite lookup_insert_eq.
  - apply NoDup_cons in Hnodup as [_ Hnodup]. by eapply IH.
Qed.

(** The symbols read off a table that has a [symbol] column of plain
    cells: one per row, the normalised cell of that column. *)
Lemma symbolsOf_table (header : list string) (rows : list (list string))
    (i : nat) :
  NoDup header →
  header !! i = Some "symbol" →
  Forall (fun row => length row = length header
                     ∧ Forall (fun c => Text.plain c = true) row) rows →
  symbolsOf (map (mkRow header) rows)
  = map (fun row => normalize (default EmptyString (row !! i))) rows.
Proof.
  intros Hnodup Hi Hrows. unfold symbolsOf.
  induction Hrows as [| row rows [Hlen Hplain] _ IH]; [done |].
  destruct (lookup_lt_is_Some_2 row i) as [c Hc].
  { rewrite Hlen. by eapply lookup_lt_Some. }
  assert (Hcell : Text.plain c = true).
  { rewrite Forall_forall in Hplain. apply Hplain.
    by eapply list_elem_of_lookup_2. }
  destruct (plain_spec c Hcell) as (Hne & _).
  assert (Hsym : symbolOf (mkRow header row) = VStr c).
  { unfold symbolOf, column.
    rewrite (mkRow_lookup_key header row i "symbol" c) by done.
    simpl. unfold jsOr. simpl. by destruct c. }
  simpl. rewrite Hsym, Hc. simpl.
  destruct c; [done |]. simpl. by rewrite <- IH.
Qed.

(** X9. Uploading a file whose name ends in [.csv] and whose text is a
    table written the way [downloadTemplate] writes it, with distinct
    column names one of which is [symbol], plain cells and at least one data
    row: the uploader error is cleared, one quote is requested per data row,
    in order, for the normalised cell of the [symbol] column, and the
    portfolio is replaced by one entry per data row. *)
Theorem upload_of_table (E : env) (name : string) (header : list string)
    (rows : list (list string)) (i : nat) :
  Str.endsWith (Str.toLowerCase name) ".csv" = true →
  rows ≠ [] →
  NoDup header →
  header !! i = Some "symbol" →
  Forall (fun c => Text.plain c = true) header →
  Forall (fun row => length row = length header
                     ∧ Forall (fun c => Text.plain c = true) row) rows →
  Uploader.handleFile E name (csvText (header :: rows))
  = [SetError None; SetLoading true]
    ++ map (fun row => Request (VStr (normalize (default EmptyString (row !! i)))))
           rows
    ++ [SetStocks
          (imap (settledEntry E (map (mkRow header) rows))
             (map (fun row => normalize (default EmptyString (row !! i))) rows));
        SetLoading false].
Proof.
  intros Hname Hrows Hnodup Hi Hhplain Hrplain.
  assert (Hheader : header ≠ []) by (by destruct header).
  unfold Uploader.handleFile. rewrite Hname. simpl negb. cbn iota.
  rewrite parseCSV_csvText by done.
  rewrite (handleCSVData_events E _
             (map (fun row => normalize (default EmptyString (row !! i))) rows)).
  - simpl. do 2 f_equal. by rewrite !map_map.
  - unfold extractSymbols. rewrite (symbolsOf_table header rows i) by done.
    rewrite length_map. by destruct rows.
Qed.

(** The template offered for download, uploaded under its own name: five
    requests, from RELIANCE to ICICIBANK. *)
Lemma upload_of_table_witness :
  map (fun row => normalize (default EmptyString (row !! 0%nat))) (tl templateData)
  = ["RELIANCE"; "TCS"; "INFY"; "HDFCBANK"; "ICICIBANK"]
  ∧ Uploader.handleFile Sample.offline "stock_portfolio_template.csv" csvContent
    = [SetError None; SetLoading true]
      ++ map (fun row => Request (VStr (normalize (default EmptyString (row !! 0%nat)))))
             (tl templateData)
      ++ [SetStocks
            (imap (settledEntry Sample.offline
                     (map (mkRow (hd [] templateData)) (tl templateData)))
               (map (fun row => normalize (default EmptyString (row !! 0%nat)))
                    (tl templateData)));
          SetLoading false].
Proof.
  split; [vm_compute; reflexivity |].
  apply (upload_of_table Sample.offline "stock_portfolio_template.csv"
           (hd [] templateData) (tl templateData) 0).
  - vm_compute. reflexivity.
  - discriminate.
  - apply (bool_decide_unpack _). vm_compute. reflexivity.
  - reflexivity.
  - unfold templateData. simpl. repeat constructor.
  - unfold templateData. simpl. repeat constructor.
Defined.

(** X10. The state an upload leaves behind, case by case.  A name that
    does not end in [.csv] (in any letter case) or a text of fewer than two
    lines only sets the uploader error; a CSV without any valid symbol only
    raises the alert; otherwise the portfolio is replaced by one entry per
    symbol and one request per symbol is logged.  In the last three cases
    the loading flag ends down, and in no case is an entry added to an
    existing portfolio. *)
Theorem handleFile_outcomes (E : env) (name text : string) (s : session) :
  run s (Uploader.handleFile E name text)
  = if negb (Str.endsWith (Str.toLowerCase name) ".csv")
    then {| stocks := stocks s; loading := loading s;
            error := Some "Please upload a CSV file.";
            alerts := alerts s; requests := requests s |}
    else if (length (linesOf text) <? 2)%nat
    then {| stocks := stocks s; loading := loading s;
            error := Some "CSV file must contain at least a header row and one data row.";
            alerts := alerts s; requests := requests s |}
    else
      let data := parseRows (fields (hd EmptyString (linesOf text)))
                    (tl (linesOf text)) [] in
      match symbolsOf data with
      | [] => {| stocks := stocks s; loading := false; error := None;
                 alerts := alerts s ++ [noSymbolsMessage];
                 requests := requests s |}
      | symbols => {| stocks := imap (settledEntry E data) symbols;
                      loading := false; error := None; alerts := alerts s;
                      requests := requests s ++ map VStr symbols |}
      end.
Proof.
  unfold Uploader.handleFile.
  destruct (negb (Str.endsWith (Str.toLowerCase name) ".csv")); [reflexivity |].
  unfold parseCSV.
  destruct (length (linesOf text) <? 2)%nat; [reflexivity |].
  cbn zeta.
  set (data := parseRows _ _ _).
  destruct (symbolsOf data) as [| symbol symbols] eqn:Hsymbols.
  - unfold handleCSVData, extractSymbols. rewrite Hsymbols. reflexivity.
  - rewrite (handleCSVData_events E data (symbol :: symbols)).
    + change ([SetError None] ++ SetLoading true :: ?l)
        with ([SetError None; SetLoading true] ++ l).
      rewrite !run_app, run_requests. reflexivity.
    + unfold extractSymbols. by rewrite Hsymbols.
Qed.

End Pipeline.

(** ** Requests are sent by the piece that raises the loading flag *)

Section Guard.
Import App.

Lemma no_request (l : list event) (symbol : value) :
  Forall (fun ev => ∀ v, ev ≠ Request v) l → Request symbol ∉ l.
Proof.
  rewrite Forall_forall. intros Hl Hin. by apply (Hl _ Hin symbol).
Qed.

(** The handlers that wait for the network all have this shape. *)
Lemma request_script (quiet : list (list event)) (reqs : list value)
    (results : list stock) :
  quiet = [] ∨ quiet = [[SetError None]] →
  (∀ s, loading (default s (last (commits s
                   (quiet ++ [SetLoading true :: map Request reqs])))) = true)
  ∧ (∀ msg, Alert msg ∉ flat (Script (quiet ++ [SetLoading true :: map Request reqs])
                               (Some [SetStocks results; SetLoading false])))
  ∧ (∀ stored, SetStocks stored ∉ concat (quiet ++ [SetLoading true :: map Request reqs])).
Proof.
  intros Hquiet. split; [| split].
  - intros s. destruct Hquiet as [-> | ->]; cbn [List.app commits last default].
    + change (run s (SetLoading true :: ?l)) with (run (apply s (SetLoading true)) l).
      by rewrite run_requests.
    + change (run (run s [SetError None]) (SetLoading true :: ?l))
        with (run (apply (apply s (SetError None)) (SetLoading true)) l).
      by rewrite run_requests.
  - intros msg. unfold flat. cbn [sync resumed default].
    rewrite concat_app. cbn [concat]. rewrite app_nil_r, !elem_of_app.
    intros [[Hin | Hin] | Hin].
    + destruct Hquiet as [-> | ->]; cbn in Hin;
        repeat (apply elem_of_cons in Hin as [[=] | Hin]); inversion Hin.
    + apply elem_of_cons in Hin as [[=] | Hin].
      by apply list_elem_of_fmap in Hin as (? & [=] & _).
    + repeat (apply elem_of_cons in Hin as [[=] | Hin]). inversion Hin.
  - intros stored. rewrite concat_app. cbn [concat].
    rewrite app_nil_r, elem_of_app. intros [Hin | Hin].
    + destruct Hquiet as [-> | ->]; cbn in Hin;
        repeat (apply elem_of_cons in Hin as [[=] | Hin]); inversion Hin.
    + apply elem_of_cons in Hin as [[=] | Hin].
      by apply list_elem_of_fmap in Hin as (? & [=] & _).
Qed.

(** X11. An upload or a refresh that sends a request for a quote at all is
    made of these pieces: for an upload, the piece that clears the error of
    the uploader; the piece that raises the loading flag and then sends
    every request, committed with the flag up, so that Loading is rendered
    while the answers are awaited; and, after the wait, the piece that
    stores a list of results that is not empty and lowers the flag.  The
    portfolio is not stored before the wait, and no alert is shown. *)
Theorem requests_under_loading (E : env) (name text : string)
    (csvData : list row) (portfolio : list stock) (h : script)
    (symbol : value) :
  h = Runs.handleFile E name text
  ∨ h = Runs.handleCSVData E csvData
  ∨ h = Runs.refreshStockData E portfolio →
  Request symbol ∈ flat h →
  ∃ quiet reqs results,
    h = Script (quiet ++ [SetLoading true :: map Request reqs])
          (Some [SetStocks results; SetLoading false])
    ∧ (quiet = [] ∨ quiet = [[SetError None]])
    ∧ results ≠ []
    ∧ (∀ s, loading (default s (last (commits s (sync h)))) = true)
    ∧ (∀ stored, SetStocks stored ∉ concat (sync h))
    ∧ (∀ msg, Alert msg ∉ flat h).
Proof.
  assert (Hshape : ∀ (quiet : list (list event)) reqs results,
            quiet = [] ∨ quiet = [[SetError None]] →
            results ≠ [] →
            h = Script (quiet ++ [SetLoading true :: map Request reqs])
                  (Some [SetStocks results; SetLoading false]) →
            ∃ quiet reqs results,
              h = Script (quiet ++ [SetLoading true :: map Request reqs])
                    (Some [SetStocks results; SetLoading false])
              ∧ (quiet = [] ∨ quiet = [[SetError None]])
              ∧ results ≠ []
              ∧ (∀ s, loading (default s (last (commits s (sync h)))) = true)
              ∧ (∀ stored, SetStocks stored ∉ concat (sync h))
              ∧ (∀ msg, Alert msg ∉ flat h)).
  { intros quiet reqs results Hquiet Hresults ->.
    destruct (request_script quiet reqs results Hquiet) as (Hup & Halert & Hstore).
    exists quiet, reqs, results. by repeat split. }
  assert (Hupload : ∀ (quiet : list (list event)) data,
            quiet = [] ∨ quiet = [[SetError None]] →
            h = Script (quiet ++ sync (Runs.handleCSVData E data))
                  (resumed (Runs.handleCSVData E data)) →
            Request symbol ∈ flat h →
            ∃ quiet reqs results,
              h = Script (quiet ++ [SetLoading true :: map Request reqs])
                    (Some [SetStocks results; SetLoading false])
              ∧ (quiet = [] ∨ quiet = [[SetError None]])
              ∧ results ≠ []
              ∧ (∀ s, loading (default s (last (commits s (sync h)))) = true)
              ∧ (∀ stored, SetStocks stored ∉ concat (sync h))
              ∧ (∀ msg, Alert msg ∉ flat h)).
  { intros quiet data Hquiet Hh Hin.
    destruct (extractSymbols data) as [symbols | e] eqn:Hsymbols.
    - rewrite (upload_script E data symbols Hsymbols) in Hh.
      apply (Hshape quiet (map VStr symbols) (imap (settledEntry E data) symbols));
        [exact Hquiet | | exact Hh].
      apply imap_nonempty. by eapply extractSymbols_Ok_nonempty.
    - exfalso. revert Hin. subst h. apply no_request.
      unfold Runs.handleCSVData. rewrite Hsymbols.
      destruct Hquiet as [-> | ->]; repeat constructor; done. }
  intros [-> | [-> | ->]] Hin.
  - unfold Runs.handleFile in *.
    destruct (negb (Str.endsWith _ _)).
    { exfalso. revert Hin. apply no_request. repeat constructor; done. }
    destruct (CSVUploader.parseCSV text) as [data | e].
    + by apply (Hupload [[SetError None]] data); [right | |].
    + exfalso. revert Hin. apply no_request. repeat constructor; done.
  - apply (Hupload [] csvData); [by left | | exact Hin].
    by destruct (Runs.handleCSVData E csvData).
  - destruct portfolio as [| own portfolio].
    { exfalso. revert Hin. apply no_request. constructor. }
    apply (Hshape [] (map (fun s => prop s "symbol") (own :: portfolio))
             (imap (settledRefresh E (own :: portfolio)) (own :: portfolio)));
      [by left | done |].
    by apply refresh_script.
Qed.

Lemma requests_under_loading_witness :
  Request (VStr "TCS") ∈ flat (Runs.handleCSVData Sample.offline [{[ "symbol" := "tcs" ]}])
  ∧ ∀ s, loading (default s (last (commits s
                    (sync (Runs.handleCSVData Sample.offline
                             [{[ "symbol" := "tcs" ]}])))))
         = true.
Proof.
  assert (Hin : Request (VStr "TCS")
                ∈ flat (Runs.handleCSVData Sample.offline [{[ "symbol" := "tcs" ]}])).
  { rewrite (upload_script Sample.offline [{[ "symbol" := "tcs" ]}] ["TCS"])
      by (vm_compute; reflexivity).
    unfold flat. cbn. apply elem_of_cons. right. by left. }
  split; [exact Hin |].
  destruct (requests_under_loading Sample.offline EmptyString EmptyString
              [{[ "symbol" := "tcs" ]}] []
              (Runs.handleCSVData Sample.offline [{[ "symbol" := "tcs" ]}])
              (VStr "TCS"))
    as (quiet & reqs & results & _ & _ & _ & Hup & _).
  - right. left. reflexivity.
  - exact Hin.
  - exact Hup.
Defined.

End Guard.

(** ** The table: search and sort headers *)

(** The search is stated for ASCII text, on which [toLowerCase] and
    [toUpperCase] as modelled are those of JavaScript, and for the filter
    stage of [filteredAndSortedStocks] alone. *)

Section Table.
Import App StockTable.

Lemma startsWith_empty (s : string) : Text.startsWith s EmptyString = true.
Proof. by destruct s. Qed.

Lemma includes_empty (s : string) : Text.includes s EmptyString = true.
Proof. destruct s; simpl; by rewrite ?startsWith_empty. Qed.

Lemma startsWith_spec (s t : string) :
  Text.startsWith s t = true ↔ ∃ post, s = t +:+ post.
Proof.
  revert s. induction t as [| c t IH]; intros s.
  - rewrite startsWith_empty. split; [| done]. intros _. by exists s.
  - destruct s as [| d s]; simpl.
    + split; [done |]. intros [post Hpost]. by rewrite append_cons in Hpost.
    + rewrite andb_true_iff, Ascii.eqb_eq, IH. split.
      * intros [-> [post ->]]. exists post. by rewrite append_cons.
      * intros [post Hpost]. rewrite append_cons in Hpost.
        injection Hpost as -> ->. split; [done |]. by exists post.
Qed.

(** [s.includes(t)] holds exactly when [t] is a piece of [s]. *)
Lemma includes_spec (s t : string) :
  Text.includes s t = true ↔ ∃ pre post, s = pre +:+ t +:+ post.
Proof.
  induction s as [| c s IH].
  - cbn [Text.includes]. rewrite orb_false_r, startsWith_spec. split.
    + intros [post Hpost]. exists EmptyString, post.
      by rewrite append_empty_l.
    + intros (pre & post & Heq). destruct pre as [| d pre].
      * rewrite append_empty_l in Heq. by exists post.
      * by rewrite append_cons in Heq.
  - cbn [Text.includes]. rewrite orb_true_iff, startsWith_spec, IH. split.
    + intros [[post Hpost] | (pre & post & ->)].
      * exists EmptyString, post. by rewrite append_empty_l.
      * exists (String c pre), post. by rewrite append_cons.
    + intros (pre & post & Heq). destruct pre as [| d pre].
      * left. exists post. by rewrite append_empty_l in Heq.
      * right. rewrite append_cons in Heq. injection Heq as -> ->.
        by exists pre, post.
Qed.

Lemma lowerChar_upperChar (c : ascii) :
  Str.lowerChar (Str.upperChar c) = Str.lowerChar c.
Proof. destruct c as [[] [] [] [] [] [] [] []]; reflexivity. Qed.

Lemma lowerChar_idemp (c : ascii) :
  Str.lowerChar (Str.lowerChar c) = Str.lowerChar c.
Proof. destruct c as [[] [] [] [] [] [] [] []]; reflexivity. Qed.

Lemma toLowerCase_toUpperCase (s : string) :
  Str.toLowerCase (Str.toUpperCase s) = Str.toLowerCase s.
Proof.
  unfold Str.toLowerCase, Str.toUpperCase.
  induction s as [| c s IH]; simpl; [done |].
  by rewrite lowerChar_upperChar, IH.
Qed.

Lemma toLowerCase_idemp (s : string) :
  Str.toLowerCase (Str.toLowerCase s) = Str.toLowerCase s.
Proof.
  unfold Str.toLowerCase. induction s as [| c s IH]; simpl; [done |].
  by rewrite lowerChar_idemp, IH.
Qed.

(** The filter reads the search term through [toLowerCase] only. *)
Lemma filtered_term (term term' : string) (stocks : list stock) :
  Str.toLowerCase term = Str.toLowerCase term' →
  filtered term stocks = filtered term' stocks.
Proof.
  intros Hterm. induction stocks as [| entry stocks IH]; [done |].
  simpl. unfold matchesSearch. by rewrite Hterm, IH.
Qed.

Lemma filtered_empty (stocks : list stock) :
  stringSymbols stocks → filtered EmptyString stocks = Ok stocks.
Proof.
  unfold stringSymbols. induction 1 as [| entry stocks Hentry _ IH]; [done |].
  simpl. rewrite IH. unfold matchesSearch.
  destruct (prop entry "symbol"); try discriminate. simpl.
  unfold mbind, result_bind. cbn beta iota.
  by rewrite includes_empty.
Qed.

(** X12. With the search box empty, as it is when the table is first shown,
    the filter keeps every entry of the portfolio an upload stored, and every
    entry of what a refresh makes of it, and throws nothing: neither the
    symbol nor the company name of an entry is needed to be well formed
    beyond the symbol being a string, which an upload guarantees. *)
Theorem empty_search_shows_all (E E' : env) (csvData : list row)
    (symbols : list string) :
  filtered EmptyString (imap (settledEntry E csvData) symbols)
  = Ok (imap (settledEntry E csvData) symbols)
  ∧ filtered EmptyString
      (imap (settledRefresh E' (imap (settledEntry E csvData) symbols))
         (imap (settledEntry E csvData) symbols))
    = Ok (imap (settledRefresh E' (imap (settledEntry E csvData) symbols))
            (imap (settledEntry E csvData) symbols)).
Proof.
  split.
  - apply filtered_empty, upload_stringSymbols.
  - apply filtered_empty, refresh_stringSymbols, upload_stringSymbols.
Qed.

Lemma lowerChar_ascii (c : ascii) :
  (nat_of_ascii (Str.lowerChar c) <? 128)%nat = (nat_of_ascii c <? 128)%nat.
Proof. destruct c as [[] [] [] [] [] [] [] []]; reflexivity. Qed.

Lemma toLowerCase_ascii (s : string) :
  Text.isAscii (Str.toLowerCase s) = Text.isAscii s.
Proof.
  unfold Str.toLowerCase. induction s as [| c s IH]; [reflexivity |].
  cbn [Str.mapChars Text.isAscii]. by rewrite lowerChar_ascii, IH.
Qed.

(** X13. The filter stage of the table (lines 218-221, the array handed to
    the sort) ignores the letter case of an ASCII search term: the term, its
    upper case and its lower case, which are ASCII text again, make the
    filter keep the same entries and fail on the same portfolios. *)
Theorem search_ignores_case (term : string) (stocks : list stock) :
  Text.isAscii term = true →
  Text.isAscii (Str.toUpperCase term) = true
  ∧ Text.isAscii (Str.toLowerCase term) = true
  ∧ filtered (Str.toUpperCase term) stocks = filtered term stocks
  ∧ filtered (Str.toLowerCase term) stocks = filtered term stocks.
Proof.
  intros Hterm.
  split; [by rewrite toUpperCase_ascii |].
  split; [by rewrite toLowerCase_ascii |].
  split; apply filtered_term.
  - apply toLowerCase_toUpperCase.
  - apply toLowerCase_idemp.
Qed.

Lemma search_ignores_case_witness :
  Text.isAscii "tc" = true
  ∧ filtered (Str.toUpperCase "tc") [{[ "symbol" := VStr "TCS" ]}]
    = filtered "tc" [{[ "symbol" := VStr "TCS" ]}].
Proof.
  split; [reflexivity |].
  destruct (search_ignores_case "tc" [{[ "symbol" := VStr "TCS" ]}])
    as (_ & _ & Hupper & _).
  - reflexivity.
  - exact Hupper.
Defined.

Lemma holds_includes (term text : string) :
  holds term (VStr text)
  ↔ Text.includes (Str.toLowerCase text) (Str.toLowerCase term) = true.
Proof.
  rewrite includes_spec. unfold holds. split.
  - intros (text' & pre & post & [= <-] & Heq). by exists pre, post.
  - intros (pre & post & Heq). by exists text, pre, post.
Qed.

(** X14. On a portfolio whose symbols and company names are ASCII strings,
    and for an ASCII search term, the filter stage of the table (lines
    218-221) throws nothing; the array it hands to the sort is a sublist of
    the portfolio, in the order of the portfolio, made of the entries whose
    symbol or company name holds the term, letter case apart.  The sort that
    follows is not covered. *)
Theorem search_result (term : string) (stocks : list stock) :
  Text.isAscii term = true →
  Forall (fun s => ∃ symbol name,
                     prop s "symbol" = VStr symbol
                     ∧ prop s "companyName" = VStr name
                     ∧ Text.isAscii symbol = true
                     ∧ Text.isAscii name = true) stocks →
  ∃ kept,
    filtered term stocks = Ok kept
    ∧ kept `sublist_of` stocks
    ∧ ∀ s, s ∈ kept
           ↔ s ∈ stocks
             ∧ (holds term (prop s "symbol") ∨ holds term (prop s "companyName")).
Proof.
  intros _ Hstocks.
  induction Hstocks as [| entry stocks Hentry _ (shown & Hshown & Hsub & Hiff)].
  - exists []. split; [done |]. split; [done |].
    intros s. split; [by intros ?%elem_of_nil | by intros [?%elem_of_nil _]].
  - simpl. rewrite Hshown. unfold matchesSearch.
    destruct Hentry as (sym & name & Esym & Ename & _ & _).
    rewrite Esym, Ename.
    simpl. unfold mbind, result_bind. cbn beta iota.
    destruct (Text.includes (Str.toLowerCase sym) (Str.toLowerCase term)) eqn:Hs;
      [| destruct (Text.includes (Str.toLowerCase name) (Str.toLowerCase term))
           eqn:Hn].
    + eexists. split; [reflexivity |]. split; [by apply sublist_skip |].
      intros s. rewrite !elem_of_cons, Hiff. split.
      * intros [-> | [Hin Hholds]]; [| by auto].
        split; [by left |]. left. rewrite Esym. by apply holds_includes.
      * intros [[-> | Hin] Hholds]; [by left | by right].
    + eexists. split; [reflexivity |]. split; [by apply sublist_skip |].
      intros s. rewrite !elem_of_cons, Hiff. split.
      * intros [-> | [Hin Hholds]]; [| by auto].
        split; [by left |]. right. rewrite Ename. by apply holds_includes.
      * intros [[-> | Hin] Hholds]; [by left | by right].
    + eexists. split; [reflexivity |]. split; [by apply sublist_cons |].
      intros s. rewrite elem_of_cons, Hiff. split.
      * intros [Hin Hholds]. by auto.
      * intros [[-> | Hin] Hholds]; [| done]. exfalso.
        rewrite Esym, Ename, !holds_includes in Hholds.
        destruct Hholds; congruence.
Qed.

Lemma search_result_witness :
  ∃ kept,
    filtered "tc"
      [{[ "symbol" := VStr "INFY"; "companyName" := VStr "Infosys" ]};
       {[ "symbol" := VStr "TCS"; "companyName" := VStr "Tata" ]}]
    = Ok kept
    ∧ kept `sublist_of`
        [{[ "symbol" := VStr "INFY"; "companyName" := VStr "Infosys" ]};
         {[ "symbol" := VStr "TCS"; "companyName" := VStr "Tata" ]}].
Proof.
  destruct (search_result "tc"
              [{[ "symbol" := VStr "INFY"; "companyName" := VStr "Infosys" ]};
               {[ "symbol" := VStr "TCS"; "companyName" := VStr "Tata" ]}])
    as (kept & Hkept & Hsub & _).
  - reflexivity.
  - constructor; [by exists "INFY", "Infosys" |].
    constructor; [by exists "TCS", "Tata" | constructor].
  - exists kept. split; [exact Hkept | exact Hsub].
Defined.

(** X15. For an ASCII search term and a portfolio whose string symbols are
    ASCII text, the filter stage of the table (lines 218-221) throws exactly
    when the portfolio holds an entry whose symbol is not a string, or whose
    symbol does not hold the term while its company name is not a string.
    What the comparator of the sort that follows may throw is not
    covered. *)
Theorem search_defined_iff (term : string) (stocks : list stock) :
  Text.isAscii term = true →
  Forall (fun s => ∀ symbol, prop s "symbol" = VStr symbol →
                             Text.isAscii symbol = true) stocks →
  (∃ kept, filtered term stocks = Ok kept)
  ↔ Forall (fun s => isString (prop s "symbol") = true
                     ∧ (holds term (prop s "symbol")
                        ∨ isString (prop s "companyName") = true)) stocks.
Proof.
  intros _ _.
  induction stocks as [| entry stocks IH].
  - split; [constructor | by exists []].
  - rewrite Forall_cons, <- IH. simpl. unfold matchesSearch.
    destruct (prop entry "symbol") as [| | | | sym |] eqn:Esym;
      try (split; [by intros [? [=]] | by intros [[[=] _] _]]).
    simpl. unfold mbind, result_bind. cbn beta iota.
    rewrite holds_includes.
    destruct (Text.includes (Str.toLowerCase sym) (Str.toLowerCase term)).
    + destruct (filtered term stocks) as [rest | e].
      * split; [| by eexists]. intros _. split; [by auto | by eexists].
      * split; [by intros [? [=]] | by intros [_ [? [=]]]].
    + destruct (prop entry "companyName") as [| | | | name |] eqn:Ename;
        try (split; [by intros [? [=]] | by intros [[_ [[=] | [=]]] _]]).
      simpl. destruct (filtered term stocks) as [rest | e].
      * split; [| by eexists]. intros _. split; [by auto | by eexists].
      * split; [by intros [? [=]] | by intros [_ [? [=]]]].
Qed.

Lemma search_defined_iff_witness :
  ∃ kept, filtered "tc" [{[ "symbol" := VStr "TCS"; "companyName" := VNum 5 ]}]
          = Ok kept.
Proof.
  apply (search_defined_iff "tc"
           [{[ "symbol" := VStr "TCS"; "companyName" := VNum 5 ]}]).
  - reflexivity.
  - constructor; [| constructor]. intros symbol Hsymbol.
    vm_compute in Hsymbol. by injection Hsymbol as <-.
  - constructor; [| constructor]. split; [reflexivity |].
    left. exists "TCS", EmptyString, "s". split; reflexivity.
Defined.




End Table.

(** ** The company name of an entry *)

Section CompanyName.
Import App StockTable.

(** X17. The company name an upload stores for a symbol is the text of the
    [companyName] column of the matched row when the CSV has one; otherwise
    it is the name in the answer of the quote endpoint when that answer is
    an object with a truthy name, and the symbol in every other case (failed
    fetch, or an answer without a name).  So the name is a string, as the
    search of the table needs it to be, whenever the name in the answer is a
    string or falsy. *)
Theorem upload_company_name (E : env) (csvData : list row) (i : nat)
    (symbol : string) :
  prop (settledEntry E csvData i symbol) "companyName"
  = match matchedRow csvData symbol ≫= (.!! "companyName") with
    | Some text => VStr text
    | None =>
        match fetch E i (VStr symbol) with
        | Response true (Ok (JObject props)) =>
            jsOr (default VUndef (props !! "companyName")) (VStr symbol)
        | _ => VStr symbol
        end
    end
  ∧ ((∀ props name,
         fetch E i (VStr symbol) = Response true (Ok (JObject props)) →
         props !! "companyName" = Some name →
         truthy name = true → isString name = true) →
     isString (prop (settledEntry E csvData i symbol) "companyName") = true).
Proof.
  assert (Hname :
    prop (settledEntry E csvData i symbol) "companyName"
    = match matchedRow csvData symbol ≫= (.!! "companyName") with
      | Some text => VStr text
      | None =>
          match fetch E i (VStr symbol) with
          | Response true (Ok (JObject props)) =>
              jsOr (default VUndef (props !! "companyName")) (VStr symbol)
          | _ => VStr symbol
          end
      end).
  { unfold settledEntry, quoteEntry, failedEntry, fetchData, prop.
    destruct (fetch E i (VStr symbol)) as [e | [] [[| props |] | e]];
      cbn [negb mbind result_bind getProp]; rewrite lookup_spreadRow;
      destruct (matchedRow csvData symbol ≫= _); reflexivity. }
  split; [exact Hname |].
  intros Hstring. rewrite Hname.
  destruct (matchedRow csvData symbol ≫= _); [reflexivity |].
  destruct (fetch E i (VStr symbol)) as [e | [] [[| props |] | e]];
    try reflexivity.
  unfold jsOr.
  destruct (props !! "companyName") as [name |] eqn:Hprops; [| reflexivity].
  simpl. destruct (truthy name) eqn:Htruthy; [| reflexivity].
  by eapply Hstring.
Qed.

End CompanyName.
